(** * embypy: the root aggregate ([embypy/emby.py]) and the video entities
    ([embypy/objects/videos.py])

    A shallow embedding of the Python code.  Python values are one
    inductive type, dictionaries are association lists in insertion order,
    and the asynchronous methods are computations over the object's cache,
    the event loop's flag and the requests handed to the connector. *)

From stdpp Require Import base list strings numbers.
From Stdlib Require Import Sorting.Sorted.

Local Open Scope Z_scope.

(** ** Python values *)

(** The classes an entity can be an instance of.  [videos.py] defines the
    video classes over the base class [EmbyObject]; the classes of the other
    modules of [embypy.objects] are kept by name. *)
Inductive eclass :=
| EmbyObject
| Video
| Movie
| Episode
| Trailer
| AdultVideo
| MusicVideo
| LibraryClass (name : string).

(** The values the code handles: decoded JSON (None, booleans, integers,
    strings, lists, dicts with string keys) and entities, each an instance of
    a class over its [object_dict]. *)
#[warnings="-register-all"]
Inductive pyval :=
| PNone
| PBool (b : bool)
| PInt (z : Z)
| PStr (s : string)
| PList (l : list pyval)
| PDict (d : list (string * pyval))
| PObject (cls : eclass) (object_dict : list (string * pyval)).

(** ** Dictionaries

    A Python [dict] keeps its keys in insertion order and holds each key
    once.  [dict_set] is [d[k] = v]: it replaces the value in place when the
    key is there and appends the item otherwise. *)
Definition pydict (V : Type) : Type := list (string * V).

Fixpoint dict_get {V} (d : pydict V) (k : string) : option V :=
  match d with
  | [] => None
  | (k', v) :: d' => if String.eqb k k' then Some v else dict_get d' k
  end.

(** [d.get(k, default)] *)
Definition dict_get_or {V} (d : pydict V) (k : string) (default : V) : V :=
  match dict_get d k with
  | Some v => v
  | None => default
  end.

Fixpoint dict_set {V} (d : pydict V) (k : string) (v : V) : pydict V :=
  match d with
  | [] => [(k, v)]
  | (k', v') :: d' =>
      if String.eqb k k' then (k', v) :: d' else (k', v') :: dict_set d' k v
  end.

(** [d.keys()], in iteration order *)
Definition dict_keys {V} (d : pydict V) : list string := map fst d.

(** [d.values()] *)
Definition dict_values {V} (d : pydict V) : list V := map snd d.

(** [len(d)] *)
Definition dict_len {V} (d : pydict V) : Z := Z.of_nat (length d).

(** The invariant of a Python dict: no key twice. *)
Definition dict_wf {V} (d : pydict V) : Prop := NoDup (dict_keys d).

(** Truth value of an object, as [if x:] and [x or y] test it.  An instance
    of a class that defines neither [__bool__] nor [__len__] is true. *)
Definition truthy (v : pyval) : bool :=
  match v with
  | PNone => false
  | PBool b => b
  | PInt z => negb (Z.eqb z 0)
  | PStr s => negb (String.eqb s EmptyString)
  | PList l => match l with [] => false | _ => true end
  | PDict d => match d with [] => false | _ => true end
  | PObject _ _ => true
  end.

(** ** Exceptions and results *)

Inductive exn :=
| JSONDecodeError
| LookupError (msg : string) (obj_id : pyval)
| KeyError (key : string)
| TypeError
| AttributeError
| RuntimeError (msg : string).

Inductive result (A : Type) :=
| Ok (a : A)
| Raise (e : exn).
Arguments Ok {A} a.
Arguments Raise {A} e.

#[export] Instance result_ret : MRet result := fun A a => Ok a.
#[export] Instance result_bind : MBind result := fun A B k r =>
  match r with
  | Ok a => k a
  | Raise e => Raise e
  end.
#[export] Instance result_fmap : FMap result := fun A B f r =>
  match r with
  | Ok a => Ok (f a)
  | Raise e => Raise e
  end.

(** ** The transport boundary

    What the code hands to its connector.  [GetJson path params] is
    [connector.getJson(path, **params)] with the keyword arguments in the
    order they are written, [Info] is [connector.info()], [FetchRaw id] the
    fetch of one record by its identifier. *)
Inductive request :=
| GetJson (path : string) (params : pydict pyval)
| Info
| FetchRaw (id : string).

(** A computation that only talks to the connector: from the requests made
    so far to its outcome and the requests it makes, oldest first. *)
Definition tr (A : Type) : Type := list request -> result A * list request.

#[export] Instance tr_ret : MRet tr := fun A a _ => (Ok a, []).
#[export] Instance tr_bind : MBind tr := fun A B k c h =>
  match c h with
  | (Ok a, t1) => let '(r, t2) := k a (h ++ t1) in (r, t1 ++ t2)
  | (Raise e, t1) => (Raise e, t1)
  end.

(** ** The root object's state and its computations *)

(** [extras] is the cache attribute of the object ([self.extras]);
    [running] is [loop.is_running()] of the event loop. *)
Record state := State { extras : pydict pyval; running : bool }.

Definition set_extras (d : pydict pyval) (s : state) : state :=
  State d (running s).
Definition set_running (b : bool) (s : state) : state :=
  State (extras s) b.

(** The body of a method: from the state and the requests made so far to an
    outcome, the state it leaves and the requests it made.  A raised
    exception keeps the state reached, as mutation does in Python. *)
Definition io (A : Type) : Type :=
  state -> list request -> result A * state * list request.

#[export] Instance io_ret : MRet io := fun A a s _ => (Ok a, s, []).
#[export] Instance io_bind : MBind io := fun A B k c s h =>
  match c s h with
  | (Ok a, s1, t1) => let '(r, s2, t2) := k a s1 (h ++ t1) in (r, s2, t1 ++ t2)
  | (Raise e, s1, t1) => (Raise e, s1, t1)
  end.

Definition raise {A} (e : exn) : io A := fun s _ => (Raise e, s, []).
Definition lift_result {A} (r : result A) : io A := fun s _ => (r, s, []).
Definition lift_tr {A} (c : tr A) : io A := fun s h =>
  let '(r, t) := c h in (r, s, t).
Definition get_state : io state := fun s _ => (Ok s, s, []).
Definition put_state (s : state) : io unit := fun _ _ => (Ok tt, s, []).

(** [try: c except: handler] *)
Definition try_except {A} (c : io A) (handler : exn -> io A) : io A :=
  fun s h =>
    match c s h with
    | (Ok a, s1, t1) => (Ok a, s1, t1)
    | (Raise e, s1, t1) =>
        let '(r, s2, t2) := handler e s1 (h ++ t1) in (r, s2, t1 ++ t2)
    end.

(** [for x in l: body] *)
Fixpoint for_each {A} (l : list A) (body : A -> io unit) : io unit :=
  match l with
  | [] => mret tt
  | x :: l' => _ ← body x; for_each l' body
  end.

(** ** Built-ins *)

(** The items a [for] or [sorted] draws from a value: the elements of a
    list, the keys of a dict, the characters of a string. *)
Definition iter (v : pyval) : result (list pyval) :=
  match v with
  | PList l => Ok l
  | PDict d => Ok (map PStr (dict_keys d))
  | PStr s => Ok (map (fun c => PStr (String c EmptyString)) (String.list_ascii_of_string s))
  | _ => Raise TypeError
  end.

(** [v[key]] for a string key *)
Definition getitem (v : pyval) (key : string) : result pyval :=
  match v with
  | PDict d =>
      match dict_get d key with
      | Some x => Ok x
      | None => Raise (KeyError key)
      end
  | _ => Raise TypeError
  end.

(** [sorted(iterable, key=key)] with integer keys: every key is computed
    first, in order, and the sort is stable.  The stable sort is written as
    an insertion sort over the decorated items: an item goes in front of the
    first one whose key is not smaller, so it stays ahead of the equal keys
    that followed it. *)
Fixpoint insert_by_key {A} (k : Z) (x : A) (l : list (Z * A)) : list (Z * A) :=
  match l with
  | [] => [(k, x)]
  | (k', y) :: l' =>
      if Z.leb k k' then (k, x) :: (k', y) :: l'
      else (k', y) :: insert_by_key k x l'
  end.

Fixpoint sort_by_key {A} (l : list (Z * A)) : list (Z * A) :=
  match l with
  | [] => []
  | (k, x) :: l' => insert_by_key k x (sort_by_key l')
  end.

Definition sorted (iterable : pyval) (key : pyval -> result Z) : result pyval :=
  l ← iter iterable;
  ks ← mapM key l;
  mret (PList (map snd (sort_by_key (zip ks l)))).

(** ** The dual calling convention *)

(** What a call of a decorated method gives back: the value, or a coroutine
    that has not started. *)
Inductive wrapped (A : Type) :=
| Value (a : A)
| Handle (c : io A).
Arguments Value {A} a.
Arguments Handle {A} c.

(** Modelled from the spec: the decorator [async_func] of
    [embypy/utils/asyncio.py], which is not among the sources.  "If invoked
    from a context with no active suspension scheduler, the wrapper blocks the
    calling thread until the operation completes and returns the resolved
    value directly; if invoked from inside an already-running suspension
    scheduler, the wrapper returns a handle that the caller must itself
    await."  While the wrapper blocks, the loop runs the body. *)
Definition async_func {A} (body : io A) : io (wrapped A) := fun s h =>
  if running s then (Ok (Handle body), s, [])
  else
    let '(r, s', t) := body (set_running true s) h in
    (Value <$> r, set_running false s', t).

(** [await x]: runs the coroutine; any other object cannot be awaited. *)
Definition await {A} (x : wrapped A) : io A :=
  match x with
  | Handle c => c
  | Value _ => raise TypeError
  end.

(** A call seen from its caller, in either context: the blocking caller has
    the value, the caller inside the loop awaits the handle. *)
Definition complete {A} (call : io (wrapped A)) : io A :=
  x ← call;
  match x with
  | Value a => mret a
  | Handle c => c
  end.

(** What [getattr] can give: a plain object, a coroutine that has not
    started, or something callable (given here by what calling it with no
    argument does). *)
Inductive attr :=
| AValue (v : pyval)
| ACoroutine (c : io pyval)
| ACallable (call : io unit).

Definition callable (a : attr) : bool :=
  match a with
  | ACallable _ => true
  | _ => false
  end.

(** ** [class Emby] *)

Section Emby.

(** The connector: the outcome of a request, given the requests made
    before it. *)
Variable respond : list request -> request -> result pyval.

(** [self.process], inherited from [EmbyObject] ([objects/object.py], not
    among the sources).  It only talks to the connector: "Side effects: none
    beyond transport-boundary calls; the Resolver itself never writes to any
    cache." *)
Variable process : pyval -> tr pyval.

(** The [type] property of an entity, inherited from [EmbyObject]. *)
Variable type : eclass -> pydict pyval -> string.

(** The attributes of the object other than the collection properties
    defined below: the methods, and what [EmbyObject] defines. *)
Variable getattr_other : string -> io attr.

Definition send (r : request) : io pyval := fun s h => (respond h r, s, [r]).

(** [await self.connector.getJson(path, **params)] *)
Definition getJson (path : string) (params : pydict pyval) : io pyval :=
  send (GetJson path params).

(** [await self.connector.info()] *)
Definition connector_info : io pyval := send Info.

(** [self.extras.get(key, default)] *)
Definition extras_get (key : string) (default : pyval) : io pyval :=
  s ← get_state; mret (dict_get_or (extras s) key default).

(** [self.extras[key] = v] *)
Definition extras_setitem (key : string) (v : pyval) : io unit :=
  s ← get_state; put_state (set_extras (dict_set (extras s) key v) s).

(** [x.type] *)
Definition type_attr (x : pyval) : result string :=
  match x with
  | PObject cls object_dict => Ok (type cls object_dict)
  | _ => Raise AttributeError
  end.

(** *** [info] *)

Definition info_body (obj_id : pyval) : io pyval :=
  if truthy obj_id then
    try_except (lift_tr (process obj_id))
      (fun e =>
         match e with
         | JSONDecodeError =>
             raise (LookupError "Error object with that id does not exist" obj_id)
         | _ => raise e
         end)
  else connector_info.

Definition info (obj_id : pyval) : io (wrapped pyval) :=
  async_func (info_body obj_id).

(** *** [search] *)

Definition default_sort_map : pydict Z :=
  [("BoxSet", 0); ("Series", 1); ("Movie", 2); ("Audio", 3); ("Person", 4)].

Definition search_params (query : string) (sort_map : pydict Z)
    (strict_sort : bool) : pydict pyval :=
  let search_params := [("remote", PBool false); ("searchTerm", PStr query)] in
  if strict_sort then
    dict_set search_params "IncludeItemTypes"
      (PStr (String.concat "," (dict_keys sort_map)))
  else search_params.

(** [lambda x: sort_map.get(x.type, m_size)] *)
Definition sort_key (sort_map : pydict Z) (m_size : Z) (x : pyval) : result Z :=
  t ← type_attr x; mret (dict_get_or sort_map t m_size).

Definition search_body (query : string) (sort_map : pydict Z)
    (strict_sort : bool) : io pyval :=
  json ← getJson "/Search/Hints/" (search_params query sort_map strict_sort);
  hints ← lift_result (getitem json "SearchHints");
  items ← lift_tr (process hints);
  let m_size := dict_len sort_map in
  lift_result (sorted items (sort_key sort_map m_size)).

Definition search (query : string) (sort_map : pydict Z) (strict_sort : bool)
    : io (wrapped pyval) :=
  async_func (search_body query sort_map strict_sort).

(** *** The collection properties *)

(** The body shared by [albums_force], [songs_force], [playlists_force],
    [artists_force], [movies_force], [series_force] and [episodes_force],
    which differ in the key, the item type and the fields. *)
Definition items_params (item_types fields : string) : pydict pyval :=
  [("remote", PBool false); ("format", PStr "json"); ("Recursive", PStr "true");
   ("IncludeItemTypes", PStr item_types); ("Fields", PStr fields);
   ("SortBy", PStr "SortName"); ("SortOrder", PStr "Ascending")].

Definition force_body (key path : string) (params : pydict pyval) : io pyval :=
  items ← getJson path params;
  items ← lift_tr (process items);
  _ ← extras_setitem key items;
  mret items.

(** [return self.extras.get(key, default) or await self.<key>_force] *)
Definition cached_body (key : string) (default : pyval)
    (force : io (wrapped pyval)) : io pyval :=
  cached ← extras_get key default;
  if truthy cached then mret cached
  else (h ← force; await h).

Definition albums_force : io (wrapped pyval) :=
  async_func (force_body "albums" "/Users/{UserId}/Items"
    (items_params "MusicAlbum" "Path,ParentId,Overview,Genres,Tags,Artists")).
Definition albums : io (wrapped pyval) :=
  async_func (cached_body "albums" PNone albums_force).

Definition songs_force : io (wrapped pyval) :=
  async_func (force_body "songs" "/Users/{UserId}/Items"
    (items_params "Audio" "Path,ParentId,Overview,Genres,Tags,Artists")).
Definition songs : io (wrapped pyval) :=
  async_func (cached_body "songs" PNone songs_force).

Definition playlists_force : io (wrapped pyval) :=
  async_func (force_body "playlists" "/Users/{UserId}/Items"
    (items_params "Playlist" "Path,ParentId,Overview")).
Definition playlists : io (wrapped pyval) :=
  async_func (cached_body "playlists" PNone playlists_force).

Definition artists_force : io (wrapped pyval) :=
  async_func (force_body "artists" "/Users/{UserId}/Items"
    (items_params "MusicArtist" "Path,ParentId,Overview,Genres,Tags")).
Definition artists : io (wrapped pyval) :=
  async_func (cached_body "artists" (PList []) artists_force).

Definition movies_force : io (wrapped pyval) :=
  async_func (force_body "movies" "/Users/{UserId}/Items"
    (items_params "Movie" "Path,ParentId,Overview,Genres,Tags,ProviderIds")).
Definition movies : io (wrapped pyval) :=
  async_func (cached_body "movies" (PList []) movies_force).

Definition series_force : io (wrapped pyval) :=
  async_func (force_body "series" "/Users/{UserId}/Items"
    (items_params "Series" "Path,ParentId,Overview,Genres,Tags")).
Definition series : io (wrapped pyval) :=
  async_func (cached_body "series" (PList []) series_force).

Definition episodes_force : io (wrapped pyval) :=
  async_func (force_body "episodes" "/Users/{UserId}/Items"
    (items_params "Episode" "Path,ParentId,Overview,Genres,Tags")).
Definition episodes : io (wrapped pyval) :=
  async_func (cached_body "episodes" (PList []) episodes_force).

Definition devices_force : io (wrapped pyval) :=
  async_func (force_body "devices" "/Devices" [("remote", PBool false)]).
Definition devices : io (wrapped pyval) :=
  async_func (cached_body "devices" (PList []) devices_force).

Definition users_force : io (wrapped pyval) :=
  async_func (force_body "users" "/Users" [("remote", PBool false)]).
Definition users : io (wrapped pyval) :=
  async_func (cached_body "users" (PList []) users_force).

(** *** [update] *)

(** Reading a property calls its decorated getter. *)
Definition read_property (getter : io (wrapped pyval)) : io attr :=
  x ← getter;
  match x with
  | Value v => mret (AValue v)
  | Handle c => mret (ACoroutine c)
  end.

Definition lookup_attr (name : string) : io attr :=
  if String.eqb name "albums" then read_property albums
  else if String.eqb name "albums_force" then read_property albums_force
  else if String.eqb name "songs" then read_property songs
  else if String.eqb name "songs_force" then read_property songs_force
  else if String.eqb name "playlists" then read_property playlists
  else if String.eqb name "playlists_force" then read_property playlists_force
  else if String.eqb name "artists" then read_property artists
  else if String.eqb name "artists_force" then read_property artists_force
  else if String.eqb name "movies" then read_property movies
  else if String.eqb name "movies_force" then read_property movies_force
  else if String.eqb name "series" then read_property series
  else if String.eqb name "series_force" then read_property series_force
  else if String.eqb name "episodes" then read_property episodes
  else if String.eqb name "episodes_force" then read_property episodes_force
  else if String.eqb name "devices" then read_property devices
  else if String.eqb name "devices_force" then read_property devices_force
  else if String.eqb name "users" then read_property users
  else if String.eqb name "users_force" then read_property users_force
  else getattr_other name.

(** [getattr(self, name, default)]: an [AttributeError] of the lookup
    gives the default. *)
Definition getattr (name : string) (default : pyval) : io attr :=
  try_except (lookup_attr name)
    (fun e =>
       match e with
       | AttributeError => mret (AValue default)
       | _ => raise e
       end).

(** [func()] *)
Definition call (func : attr) : io unit :=
  match func with
  | ACallable c => c
  | _ => raise TypeError
  end.

(** [keys] is a view of the dict that [self.extras] named when the method
    started; the assignment binds [self.extras] to a new dict and leaves
    that one as it was, so the loop runs over its keys. *)
Definition update_body : io pyval :=
  s ← get_state;
  let keys := dict_keys (extras s) in
  _ ← put_state (set_extras [] s);
  _ ← for_each keys (fun key =>
         try_except
           (func ← getattr key PNone;
            if callable func then call func else mret tt)
           (fun _ => mret tt));
  mret PNone.

Definition update : io (wrapped pyval) := async_func update_body.

End Emby.

(** ** The collections as a table

    The eighteen properties of [emby.py] come in pairs, one pair for each
    collection; the table names the pair, the cache key and the query of a
    collection, for statements that range over all of them. *)

Inductive item_collection :=
| Albums | Songs | Playlists | Artists | Movies | Series | Episodes.

Inductive collection :=
| Items (c : item_collection)
| Devices
| Users.

Definition item_key (c : item_collection) : string :=
  match c with
  | Albums => "albums"
  | Songs => "songs"
  | Playlists => "playlists"
  | Artists => "artists"
  | Movies => "movies"
  | Series => "series"
  | Episodes => "episodes"
  end.

Definition item_type (c : item_collection) : string :=
  match c with
  | Albums => "MusicAlbum"
  | Songs => "Audio"
  | Playlists => "Playlist"
  | Artists => "MusicArtist"
  | Movies => "Movie"
  | Series => "Series"
  | Episodes => "Episode"
  end.

Definition item_fields (c : item_collection) : string :=
  match c with
  | Albums => "Path,ParentId,Overview,Genres,Tags,Artists"
  | Songs => "Path,ParentId,Overview,Genres,Tags,Artists"
  | Playlists => "Path,ParentId,Overview"
  | Artists => "Path,ParentId,Overview,Genres,Tags"
  | Movies => "Path,ParentId,Overview,Genres,Tags,ProviderIds"
  | Series => "Path,ParentId,Overview,Genres,Tags"
  | Episodes => "Path,ParentId,Overview,Genres,Tags"
  end.

Definition collection_key (c : collection) : string :=
  match c with
  | Items i => item_key i
  | Devices => "devices"
  | Users => "users"
  end.

Definition collection_query (c : collection) : request :=
  match c with
  | Items i =>
      GetJson "/Users/{UserId}/Items"
        [("remote", PBool false); ("format", PStr "json");
         ("Recursive", PStr "true"); ("IncludeItemTypes", PStr (item_type i));
         ("Fields", PStr (item_fields i)); ("SortBy", PStr "SortName");
         ("SortOrder", PStr "Ascending")]
  | Devices => GetJson "/Devices" [("remote", PBool false)]
  | Users => GetJson "/Users" [("remote", PBool false)]
  end.

(** The names of the collection properties. *)
Definition property_names : list string :=
  ["albums"; "albums_force"; "songs"; "songs_force"; "playlists";
   "playlists_force"; "artists"; "artists_force"; "movies"; "movies_force";
   "series"; "series_force"; "episodes"; "episodes_force"; "devices";
   "devices_force"; "users"; "users_force"].

Section Accessors.

Variable respond : list request -> request -> result pyval.
Variable process : pyval -> tr pyval.

(** The Forced accessor of a collection. *)
Definition forced (c : collection) : io (wrapped pyval) :=
  match c with
  | Items Albums => albums_force respond process
  | Items Songs => songs_force respond process
  | Items Playlists => playlists_force respond process
  | Items Artists => artists_force respond process
  | Items Movies => movies_force respond process
  | Items Series => series_force respond process
  | Items Episodes => episodes_force respond process
  | Devices => devices_force respond process
  | Users => users_force respond process
  end.

(** The Cached accessor of a collection. *)
Definition cached (c : collection) : io (wrapped pyval) :=
  match c with
  | Items Albums => albums respond process
  | Items Songs => songs respond process
  | Items Playlists => playlists respond process
  | Items Artists => artists respond process
  | Items Movies => movies respond process
  | Items Series => series respond process
  | Items Episodes => episodes respond process
  | Devices => devices respond process
  | Users => users respond process
  end.

End Accessors.

(** ** The order [search] sorts by *)

Section Priorities.

Variable type : eclass -> pydict pyval -> string.
Variable sort_map : pydict Z.

Definition is_entity (x : pyval) : Prop :=
  match x with
  | PObject _ _ => True
  | _ => False
  end.

(** The key [sort_map.get(x.type, m_size)] of an entity, [m_size] being
    [len(sort_map)]. *)
Definition priority (x : pyval) : Z :=
  match x with
  | PObject cls object_dict =>
      dict_get_or sort_map (type cls object_dict) (dict_len sort_map)
  | _ => dict_len sort_map
  end.

(** The type tag of the entity is a key of [sort_map]. *)
Definition mapped (x : pyval) : Prop :=
  match x with
  | PObject cls object_dict => is_Some (dict_get sort_map (type cls object_dict))
  | _ => False
  end.

#[export] Instance mapped_dec x : Decision (mapped x).
Proof. destruct x; simpl; apply _. Defined.

(** Every entity whose type tag is not a key of [sort_map] stands after
    every entity whose type tag is one. *)
Definition unmapped_last (l : list pyval) : Prop :=
  forall (i j : nat) x y,
    l !! i = Some x -> l !! j = Some y ->
    mapped x -> is_entity y -> ~ mapped y -> (i < j)%nat.

End Priorities.

(** ** The Resolver *)

Section Resolver.

Variable respond : list request -> request -> result pyval.

(** The Type Registry, "a static mapping from a server-supplied type tag to
    a constructor"; its table is in [embypy/objects], not among the
    sources. *)
Variable classify : string -> eclass.

(** The record a fetched value stands for: "a single record or a record that
    itself unwraps to one". *)
Variable unwrap : pyval -> result (pydict pyval).

(** The order in which the fetches of a sequence of [n] elements complete,
    as indices into the sequence. *)
Variable schedule : nat -> list nat.

Definition tr_raise {A} (e : exn) : tr A := fun _ => (Raise e, []).
Definition tr_result {A} (r : result A) : tr A := fun _ => (r, []).

Definition fetchRaw (id : string) : tr pyval := fun h =>
  (respond h (FetchRaw id), [FetchRaw id]).

(** Modelled from the spec: the construction of an entity from a record,
    which [objects/object.py] holds.  "Type tag: a string carried in
    rawRecord (field "Type") that selects the concrete entity variant at
    construction time; absence or unrecognized value yields the generic
    Entity type." *)
Definition construct (record : pydict pyval) : pyval :=
  PObject
    match dict_get record "Type" with
    | Some (PStr tag) => classify tag
    | _ => EmbyObject
    end
    record.

(** Modelled from the spec: [process] of [objects/object.py] on one element.
    "Already an Entity: returned unchanged.  A record: classified via Type
    Registry, constructed directly, no network call.  A bare identifier
    (string): triggers fetchRaw(id) on the transport boundary; construct as
    above."  A failure of the transport is passed on as it is; [info] is the
    caller that turns the decode failure into the lookup error. *)
Definition resolve (x : pyval) : tr pyval :=
  match x with
  | PObject _ _ => mret x
  | PDict record => mret (construct record)
  | PStr id =>
      raw ← fetchRaw id;
      record ← tr_result (unwrap raw);
      mret (construct record)
  | _ => tr_raise TypeError
  end.

(** The element at index [i] resolved and stored at index [i]. *)
Definition resolve_into (l : list pyval) (slots : list (option pyval)) (i : nat)
    : tr (list (option pyval)) :=
  match l !! i with
  | Some x => r ← resolve x; mret (<[i := Some r]> slots)
  | None => mret slots
  end.

Fixpoint resolve_in_order (l : list pyval) (order : list nat)
    (slots : list (option pyval)) : tr (list (option pyval)) :=
  match order with
  | [] => mret slots
  | i :: order' =>
      slots' ← resolve_into l slots i;
      resolve_in_order l order' slots'
  end.

Definition collect (slots : list (option pyval)) : result (list pyval) :=
  match mapM id slots with
  | Some rs => Ok rs
  | None => Raise (RuntimeError "an element was left unresolved")
  end.

(** Modelled from the spec: [process] of [objects/object.py].  "A sequence of
    any mixture of the above: resolves each element (concurrently or
    sequentially; ordering of fetches is not meaningful, but the returned
    sequence MUST preserve input order regardless of fetch completion
    order)", which "requires index-preserving collection, not
    append-on-completion". *)
Definition process (x : pyval) : tr pyval :=
  match x with
  | PList l =>
      slots ← resolve_in_order l (schedule (length l)) (replicate (length l) None);
      rs ← tr_result (collect slots);
      mret (PList rs)
  | _ => resolve x
  end.

(** What a sequence handed to [process] is made of: identifiers, records and
    entities. *)
Definition is_element (x : pyval) : Prop :=
  match x with
  | PStr _ | PDict _ | PObject _ _ => True
  | _ => False
  end.

(** [r] is the entity that [x] resolves to: [x] itself when it is an entity,
    the entity constructed from [x] when it is a record, and the entity
    constructed from a record fetched for [x] when it is an identifier. *)
Definition resolution_of (x r : pyval) : Prop :=
  match x with
  | PObject _ _ => r = x
  | PDict record => r = construct record
  | PStr id =>
      exists h raw record,
        respond h (FetchRaw id) = Ok raw /\ unwrap raw = Ok record /\
        r = construct record
  | _ => False
  end.

End Resolver.

(** ** [objects/videos.py]: [class Episode]

    A property is a function of [self]; a setter gives [self] back with its
    [object_dict] updated.  The properties are those of instances of
    [Episode]. *)

Module EpisodeClass.

Definition getter (self : pyval) (read : pydict pyval -> pyval) : result pyval :=
  match self with
  | PObject Episode object_dict => Ok (read object_dict)
  | _ => Raise AttributeError
  end.

(** An assignment to the attribute.  On an instance of [Episode] the setter
    of the property runs.  On an instance of another class no property of
    that name is found: the assignment binds an attribute of the instance
    (which the values here do not record), raises nothing and leaves
    [object_dict] as it is.  On a value that is not
    an instance (None, a number, a string, a list, a dict) it raises the
    attribute error. *)
Definition setter (self : pyval) (write : pydict pyval -> pydict pyval)
    : result pyval :=
  match self with
  | PObject Episode object_dict => Ok (PObject Episode (write object_dict))
  | PObject cls object_dict => Ok (PObject cls object_dict)
  | _ => Raise AttributeError
  end.

Definition premiere_date (self : pyval) : result pyval :=
  getter self (fun object_dict => dict_get_or object_dict "PremiereDate" PNone).

Definition index_number (self : pyval) : result pyval :=
  getter self (fun object_dict => dict_get_or object_dict "IndexNumber" (PInt 1)).

Definition set_index_number (self value : pyval) : result pyval :=
  setter self (fun object_dict => dict_set object_dict "IndexNumber" value).

Definition episode_number (self : pyval) : result pyval := index_number self.

Definition set_episode_number (self value : pyval) : result pyval :=
  set_index_number self value.

Definition season_id (self : pyval) : result pyval :=
  getter self (fun object_dict => dict_get_or object_dict "SeasonId" (PInt 1)).

Definition set_season_id (self value : pyval) : result pyval :=
  setter self (fun object_dict => dict_set object_dict "SeasonId" value).

Definition series_id (self : pyval) : result pyval :=
  getter self (fun object_dict => dict_get_or object_dict "SeriesId" PNone).

Definition series_name (self : pyval) : result pyval :=
  getter self (fun object_dict => dict_get_or object_dict "SeriesName" PNone).

Definition genres (self : pyval) : result pyval :=
  getter self (fun object_dict => dict_get_or object_dict "SeriesGenres" (PList [])).

End EpisodeClass.

(** ** [latest], [nextUp] and the calls of the class as operations *)

Section Queries.

Variable respond : list request -> request -> result pyval.
Variable process : pyval -> tr pyval.
Variable type : eclass -> pydict pyval -> string.
Variable getattr_other : string -> io attr.

(** *** [latest] *)

Definition latest_body (userId : pyval) (itemTypes : string) (groupItems : bool)
    : io pyval :=
  json ← getJson respond "/Users/{UserId}/Items/Latest"
           [("remote", PBool false); ("userId", userId);
            ("IncludeItemTypes", PStr itemTypes); ("GroupItems", PBool groupItems)];
  lift_tr (process json).

Definition latest (userId : pyval) (itemTypes : string) (groupItems : bool)
    : io (wrapped pyval) :=
  async_func (latest_body userId itemTypes groupItems).

(** *** [nextUp] *)

Definition nextUp_body (userId : pyval) : io pyval :=
  json ← getJson respond "/Shows/NextUp"
           [("pass_uid", PBool true); ("remote", PBool false); ("userId", userId)];
  lift_tr (process json).

Definition nextUp (userId : pyval) : io (wrapped pyval) :=
  async_func (nextUp_body userId).

(** *** A caller's calls

    The calls a user of the object can make, and a caller that makes them one
    after the other, going on after a call that raised. *)
Inductive operation :=
| CallInfo (obj_id : pyval)
| CallSearch (query : string) (sort_map : pydict Z) (strict_sort : bool)
| CallLatest (userId : pyval) (itemTypes : string) (groupItems : bool)
| CallNextUp (userId : pyval)
| CallUpdate
| ReadCached (c : collection)
| ReadForced (c : collection).

Definition perform (op : operation) : io pyval :=
  match op with
  | CallInfo obj_id => complete (info respond process obj_id)
  | CallSearch query sort_map strict_sort =>
      complete (search respond process type query sort_map strict_sort)
  | CallLatest userId itemTypes groupItems =>
      complete (latest userId itemTypes groupItems)
  | CallNextUp userId => complete (nextUp userId)
  | CallUpdate => complete (update respond process getattr_other)
  | ReadCached c => complete (cached respond process c)
  | ReadForced c => complete (forced respond process c)
  end.

(** The state and the requests after a run of calls. *)
Fixpoint perform_all (ops : list operation) (s : state) (h : list request)
    : state * list request :=
  match ops with
  | [] => (s, [])
  | op :: ops' =>
      let '(_, s1, t1) := perform op s h in
      let '(s2, t2) := perform_all ops' s1 (h ++ t1) in
      (s2, t1 ++ t2)
  end.

(** *** The loop of [update], key by key

    What the body of the [try] does at one key, and the state and requests
    after it has been tried at each key in turn, every key from where the
    one before left off, raised or not. *)
Definition refresh_key (key : string) : io unit :=
  func ← getattr respond process getattr_other key PNone;
  if callable func then call func else mret tt.

Fixpoint refresh_all (keys : list string) (s : state) (h : list request)
    : state * list request :=
  match keys with
  | [] => (s, [])
  | key :: keys' =>
      let '(_, s1, t1) := refresh_key key s h in
      let '(s2, t2) := refresh_all keys' s1 (h ++ t1) in
      (s2, t1 ++ t2)
  end.

End Queries.

(** The cache of the object as the class keeps it: no key twice, and every
    key the key of a collection. *)
Definition cache_ok (s : state) : Prop :=
  dict_wf (extras s) /\
  Forall (fun k => exists c, k = collection_key c) (dict_keys (extras s)).

(** ** A sample server

    Concrete values for the parameters of the development, on which the
    statements below are run. *)

Module Sample.

Definition record (id tag name : string) : pyval :=
  PDict [("Id", PStr id); ("Type", PStr tag); ("Name", PStr name)].

Definition classify (tag : string) : eclass :=
  if String.eqb tag "Movie" then Movie
  else if String.eqb tag "Episode" then Episode
  else if String.eqb tag "Series" then LibraryClass "Series"
  else if String.eqb tag "Person" then LibraryClass "Person"
  else EmbyObject.

Definition entity (id tag name : string) : pyval :=
  PObject (classify tag) [("Id", PStr id); ("Type", PStr tag); ("Name", PStr name)].

Definition unwrap (raw : pyval) : result (pydict pyval) :=
  match raw with
  | PDict d => Ok d
  | _ => Raise TypeError
  end.

Definition in_turn (n : nat) : list nat := seq 0 n.
Definition last_first (n : nat) : list nat := reverse (seq 0 n).

Definition type_tag (cls : eclass) (object_dict : pydict pyval) : string :=
  match dict_get object_dict "Type" with
  | Some (PStr tag) => tag
  | _ => "Object"
  end.

(** The server answers a search with [hits], any other query with [items],
    the status request with its name, the fetch of ["nonexistent-id"] with a
    body that does not decode and any other fetch with the record of a
    movie. *)
Definition server (hits items : pyval) (h : list request) (r : request)
    : result pyval :=
  match r with
  | GetJson path _ =>
      if String.eqb path "/Search/Hints/" then Ok (PDict [("SearchHints", hits)])
      else Ok items
  | Info => Ok (PDict [("ServerName", PStr "sample")])
  | FetchRaw id =>
      if String.eqb id "nonexistent-id" then Raise JSONDecodeError
      else Ok (record id "Movie" "A movie")
  end.

Definition resolver (hits items : pyval) : pyval -> tr pyval :=
  process (server hits items) classify unwrap in_turn.

Definition no_attr (name : string) : io attr := raise AttributeError.

Definition library : pyval := PList [record "m1" "Movie" "Alien"].
Definition resolved_library : pyval := PList [entity "m1" "Movie" "Alien"].

(** The hits of the example of the specification, and a search whose map
    gives its one type a priority above its size. *)
Definition hits : pyval :=
  PList [record "a" "Series" "A"; record "b" "Movie" "B";
         record "c" "Movie" "C"; record "d" "Person" "D"].
Definition two_hits : pyval :=
  PList [record "b" "Movie" "B"; record "d" "Person" "D"].

Definition start : state := State [] false.
Definition movies_cached : state := State [("movies", resolved_library)] false.

End Sample.

(** ** A server that is down *)

Module Outage.

Definition server (h : list request) (r : request) : result pyval :=
  Raise (RuntimeError "connection refused").

Definition resolver : pyval -> tr pyval :=
  process server Sample.classify Sample.unwrap Sample.in_turn.

(** A list that names an identifier the sample server does not know. *)
Definition dangling : pyval := PList [PStr "nonexistent-id"].

(** A server that answers every request with [v]. *)
Definition answering (v : pyval) (h : list request) (r : request) : result pyval :=
  Ok v.

(** An object with two more attributes: reading [a] raises, and [b] is a
    method that asks the server for its status. *)
Definition two_attrs (name : string) : io attr :=
  if String.eqb name "a" then raise (RuntimeError "a is broken")
  else if String.eqb name "b" then
    mret (ACallable (fun s h => (Ok tt, s, [Info])))
  else raise AttributeError.

(** A Resolver that gives back what it is given. *)
Definition as_given (v : pyval) : tr pyval := mret v.

(** A cache that holds the movies and the users. *)
Definition two_cached : state :=
  State [("movies", Sample.resolved_library);
         ("users", PList [Sample.entity "u1" "User" "root"])] false.

End Outage.

(** * Properties *)

(** ** The stable sort behind [sorted] *)

Section Sorting.
Context {A : Type} (f : A -> Z).

(** The sort read on the items themselves, the key recomputed at each
    comparison; [sort_by_key_decorate] below ties it to [sort_by_key]. *)
Fixpoint insert_on (x : A) (l : list A) : list A :=
  match l with
  | [] => [x]
  | y :: l' => if Z.leb (f x) (f y) then x :: y :: l' else y :: insert_on x l'
  end.

Fixpoint sort_on (l : list A) : list A :=
  match l with
  | [] => []
  | x :: l' => insert_on x (sort_on l')
  end.

Definition decorate (l : list A) : list (Z * A) := (fun x => (f x, x)) <$> l.

Lemma zip_decorate l : zip (f <$> l) l = decorate l.
Proof. induction l as [|x l IH]; [done|]. cbn. f_equal. exact IH. Qed.

Lemma insert_by_key_decorate x l :
  insert_by_key (f x) x (decorate l) = decorate (insert_on x l).
Proof.
  induction l as [|y l IH]; simpl; [done|].
  destruct (Z.leb (f x) (f y)); simpl; [done | by rewrite IH].
Qed.

Lemma sort_by_key_decorate l : sort_by_key (decorate l) = decorate (sort_on l).
Proof.
  induction l as [|x l IH]; simpl; [done|].
  by rewrite IH, insert_by_key_decorate.
Qed.

Lemma snd_decorate l : (decorate l).*2 = l.
Proof. induction l as [|x l IH]; [done|]. cbn. f_equal. exact IH. Qed.

Lemma insert_on_perm x l : insert_on x l ≡ₚ x :: l.
Proof.
  induction l as [|y l IH]; simpl; [done|].
  destruct (Z.leb (f x) (f y)); [done|].
  rewrite IH. apply Permutation_swap.
Qed.

Lemma sort_on_perm l : sort_on l ≡ₚ l.
Proof.
  induction l as [|x l IH]; simpl; [done|].
  by rewrite insert_on_perm, IH.
Qed.

Definition key_le (x y : A) : Prop := f x <= f y.

Lemma insert_on_sorted x l :
  StronglySorted key_le l -> StronglySorted key_le (insert_on x l).
Proof.
  induction 1 as [|y l Hl IH Hy]; simpl.
  - repeat constructor.
  - destruct (Z.leb_spec (f x) (f y)) as [Hxy|Hxy].
    + constructor; [by constructor|].
      constructor; [done|].
      eapply Forall_impl; [|exact Hy].
      unfold key_le; intros z Hz; lia.
    + constructor; [done|].
      rewrite insert_on_perm. constructor; [|done].
      unfold key_le; lia.
Qed.

Lemma sort_on_sorted l : StronglySorted key_le (sort_on l).
Proof.
  induction l as [|x l IH]; simpl; [constructor|].
  by apply insert_on_sorted.
Qed.

(** Stability: the items of one key come out in the order they went in. *)
Lemma insert_on_filter j x l :
  filter (fun y => f y = j) (insert_on x l)
  = filter (fun y => f y = j) (x :: l).
Proof.
  induction l as [|y l IH]; simpl; [done|].
  destruct (Z.leb_spec (f x) (f y)) as [Hxy|Hxy]; [done|].
  rewrite (filter_cons _ y (insert_on x l)), IH.
  rewrite !filter_cons.
  destruct (decide (f y = j)), (decide (f x = j)); try done; lia.
Qed.

Lemma sort_on_stable j l :
  filter (fun y => f y = j) (sort_on l) = filter (fun y => f y = j) l.
Proof.
  induction l as [|x l IH]; simpl; [done|].
  rewrite insert_on_filter, !filter_cons, IH. done.
Qed.

(** An item whose key is the largest goes behind the smaller keys and in
    front of the items of its own key. *)
Lemma insert_on_app_small x l1 l2 :
  Forall (fun y => f x <= f y) l2 ->
  insert_on x (l1 ++ l2) = insert_on x l1 ++ l2.
Proof.
  intros H2. induction l1 as [|y l1 IH]; simpl.
  - destruct H2 as [|z l2 Hz H2]; simpl; [done|].
    by destruct (Z.leb_spec (f x) (f z)); [|lia].
  - destruct (Z.leb (f x) (f y)); [done | by rewrite IH].
Qed.

Lemma insert_on_app_large x l1 l2 :
  Forall (fun y => f y < f x) l1 ->
  Forall (fun y => f x <= f y) l2 ->
  insert_on x (l1 ++ l2) = l1 ++ x :: l2.
Proof.
  intros H1 H2. induction H1 as [|y l1 Hy H1 IH]; simpl.
  - destruct H2 as [|z l2 Hz H2]; simpl; [done|].
    by destruct (Z.leb_spec (f x) (f z)); [|lia].
  - destruct (Z.leb_spec (f x) (f y)); [lia | by rewrite IH].
Qed.

(** With every key at most [m], the sort is the sort of the keys below [m]
    followed by the items of key [m] as they stood. *)
Lemma sort_on_split m l :
  Forall (fun y => f y <= m) l ->
  sort_on l
  = sort_on (filter (fun y => f y < m) l) ++ filter (fun y => f y = m) l.
Proof.
  induction 1 as [|x l Hx Hl IH]; simpl; [done|].
  rewrite IH, !filter_cons.
  destruct (decide (f x < m)) as [Hlt|Hge], (decide (f x = m)) as [Heq|Hne];
    try lia; simpl.
  - apply insert_on_app_small.
    apply list.Forall_forall. intros y Hy%list_elem_of_filter. lia.
  - apply insert_on_app_large.
    + apply list.Forall_forall. intros y Hy.
      rewrite sort_on_perm in Hy. apply list_elem_of_filter in Hy. lia.
    + apply list.Forall_forall. intros y Hy%list_elem_of_filter. lia.
Qed.

End Sorting.

(** ** Dictionaries *)

Lemma dict_get_set_eq {V} (d : pydict V) k v : dict_get (dict_set d k v) k = Some v.
Proof.
  induction d as [|[k' v'] d IH]; simpl.
  - by rewrite String.eqb_refl.
  - destruct (String.eqb k k') eqn:E; simpl; rewrite E; [done | exact IH].
Qed.

Lemma dict_get_set_ne {V} (d : pydict V) k k' v :
  k <> k' -> dict_get (dict_set d k v) k' = dict_get d k'.
Proof.
  intros Hne. induction d as [|[k0 v0] d IH]; simpl.
  - by apply String.eqb_neq in Hne; rewrite String.eqb_sym, Hne.
  - destruct (String.eqb_spec k k0) as [->|Hk]; simpl.
    + by apply String.eqb_neq in Hne; rewrite String.eqb_sym, Hne.
    + by rewrite IH.
Qed.

(** ** Running the methods *)

Lemma set_running_same s : set_running (running s) s = s.
Proof. by destruct s. Qed.

Lemma set_running_twice b b' s : set_running b (set_running b' s) = set_running b s.
Proof. done. Qed.

Section EmbyFacts.

Context (respond : list request -> request -> result pyval).
Context (process : pyval -> tr pyval).
Context (type : eclass -> pydict pyval -> string).
Context (getattr_other : string -> io attr).

(** A decorated method, called and seen through: in a running loop its body
    runs where it is awaited; from a blocking caller the loop runs for the
    time of the body. *)
Lemma complete_async_func {A} (body : io A) s h :
  complete (async_func body) s h =
  if running s then body s h
  else let '(r, s', t) := body (set_running true s) h in
       (r, set_running false s', t).
Proof.
  unfold complete, async_func, mbind, io_bind.
  destruct (running s).
  - rewrite app_nil_r. by destruct (body s h) as [[r s'] t].
  - destruct (body (set_running true s) h) as [[[a|e] s'] t]; simpl; [|done].
    by rewrite app_nil_r.
Qed.

Lemma force_body_run key path params s h :
  force_body respond process key path params s h =
  match respond h (GetJson path params) with
  | Ok items =>
      match process items (h ++ [GetJson path params]) with
      | (Ok v, t) =>
          (Ok v, set_extras (dict_set (extras s) key v) s, GetJson path params :: t)
      | (Raise e, t) => (Raise e, s, GetJson path params :: t)
      end
  | Raise e => (Raise e, s, [GetJson path params])
  end.
Proof.
  unfold force_body, getJson, send, lift_tr, extras_setitem, get_state, put_state,
    mbind, mret, io_bind, io_ret.
  destruct (respond h (GetJson path params)) as [items|e]; [|done].
  destruct (process items (h ++ [GetJson path params])) as [[v|e] t]; simpl; [|done].
  by rewrite !app_nil_r.
Qed.

Lemma cached_body_run key default body s h :
  running s = true ->
  cached_body key default (async_func body) s h =
  if truthy (dict_get_or (extras s) key default)
  then (Ok (dict_get_or (extras s) key default), s, [])
  else body s h.
Proof.
  intros Hrun.
  unfold cached_body, extras_get, get_state, async_func, await,
    mbind, mret, io_bind, io_ret.
  simpl. destruct (truthy (dict_get_or (extras s) key default)); [done|].
  rewrite Hrun. simpl. rewrite !app_nil_r.
  by destruct (body s h) as [[r s'] t].
Qed.

Lemma forced_unfold c :
  exists path params,
    collection_query c = GetJson path params /\
    forced respond process c
    = async_func (force_body respond process (collection_key c) path params).
Proof. destruct c as [[]| |]; eexists _, _; split; reflexivity. Qed.

Lemma cached_unfold c :
  exists default,
    truthy default = false /\
    cached respond process c
    = async_func (cached_body (collection_key c) default (forced respond process c)).
Proof. destruct c as [[]| |]; eexists; (split; [|reflexivity]); reflexivity. Qed.

(** The Forced accessor of any collection, seen through. *)
Lemma forced_run c s h :
  complete (forced respond process c) s h =
  match respond h (collection_query c) with
  | Ok items =>
      match process items (h ++ [collection_query c]) with
      | (Ok v, t) =>
          (Ok v, set_extras (dict_set (extras s) (collection_key c) v) s,
           collection_query c :: t)
      | (Raise e, t) => (Raise e, s, collection_query c :: t)
      end
  | Raise e => (Raise e, s, [collection_query c])
  end.
Proof.
  destruct (forced_unfold c) as (path & params & -> & ->).
  rewrite complete_async_func, !force_body_run.
  destruct s as [ex [|]]; simpl; [done|].
  destruct (respond h (GetJson path params)) as [items|e]; [|done].
  by destruct (process items (h ++ [GetJson path params])) as [[v|e] t].
Qed.

(** The Cached accessor of any collection, seen through. *)
Lemma cached_run c s h :
  complete (cached respond process c) s h =
  match dict_get (extras s) (collection_key c) with
  | Some v =>
      if truthy v then (Ok v, s, []) else complete (forced respond process c) s h
  | None => complete (forced respond process c) s h
  end.
Proof.
  destruct (cached_unfold c) as (default & Hdef & ->).
  destruct (forced_unfold c) as (path & params & Hq & Hf).
  rewrite Hf, !complete_async_func.
  destruct s as [ex [|]]; simpl.
  - rewrite cached_body_run by done. simpl. unfold dict_get_or.
    destruct (dict_get ex (collection_key c)) as [v|]; [|by rewrite Hdef].
    by destruct (truthy v).
  - rewrite cached_body_run by done. simpl. unfold dict_get_or.
    destruct (dict_get ex (collection_key c)) as [v|].
    + destruct (truthy v); [done|].
      by destruct (force_body _ _ _ _ _ _ _) as [[r s'] t].
    + rewrite Hdef. by destruct (force_body _ _ _ _ _ _ _) as [[r s'] t].
Qed.

(** *** [update] *)

Lemma read_property_running body s h :
  running s = true ->
  read_property (async_func body) s h = (Ok (ACoroutine body), s, []).
Proof.
  intros Hrun. unfold read_property, async_func, mbind, mret, io_bind, io_ret.
  by rewrite Hrun.
Qed.

(** In a running loop, reading a collection property gives a coroutine that
    has not started. *)
Lemma lookup_attr_property name s h :
  name ∈ property_names -> running s = true ->
  exists body,
    lookup_attr respond process getattr_other name s h
    = (Ok (ACoroutine body), s, []).
Proof.
  intros Hin Hrun. unfold property_names in Hin.
  repeat (apply elem_of_cons in Hin as [->|Hin]);
    [eexists; apply (read_property_running _ _ _ Hrun)..|].
  by apply elem_of_nil in Hin.
Qed.

(** The body of the loop of [update] at such a key: nothing is called. *)
Lemma update_step name s h :
  name ∈ property_names -> running s = true ->
  try_except
    (func ← getattr respond process getattr_other name PNone;
     if callable func then call func else mret tt)
    (fun _ => mret tt) s h
  = (Ok tt, s, []).
Proof.
  intros Hin Hrun.
  destruct (lookup_attr_property name s h Hin Hrun) as [body Hbody].
  unfold try_except, getattr, mbind, io_bind. unfold try_except.
  by rewrite Hbody.
Qed.

Lemma for_each_cons {A} (x : A) l body s h :
  for_each (x :: l) body s h =
  match body x s h with
  | (Ok _, s1, t1) =>
      let '(r, s2, t2) := for_each l body s1 (h ++ t1) in (r, s2, t1 ++ t2)
  | (Raise e, s1, t1) => (Raise e, s1, t1)
  end.
Proof. reflexivity. Qed.

Lemma update_loop keys s h :
  Forall (fun k => k ∈ property_names) keys -> running s = true ->
  for_each keys (fun key =>
    try_except
      (func ← getattr respond process getattr_other key PNone;
       if callable func then call func else mret tt)
      (fun _ => mret tt)) s h
  = (Ok tt, s, []).
Proof.
  intros Hkeys Hrun. revert h.
  induction Hkeys as [|k keys Hk Hkeys IH]; intros h; [done|].
  rewrite for_each_cons, (update_step k s h Hk Hrun).
  by rewrite IH.
Qed.

(** [update] on a cache that holds collection keys: the cache is emptied, no
    accessor runs and no request is made. *)
Lemma update_run s h :
  Forall (fun k => k ∈ property_names) (dict_keys (extras s)) ->
  complete (update respond process getattr_other) s h
  = (Ok PNone, set_extras [] s, []).
Proof.
  intros Hkeys. unfold update. rewrite complete_async_func.
  assert (Hbody : forall s', running s' = true -> extras s' = extras s ->
            update_body respond process getattr_other s' h
            = (Ok PNone, set_extras [] s', [])).
  { intros s' Hrun Hex.
    unfold update_body, get_state, put_state.
    unfold mbind at 1 2 3, mret, io_bind at 1 2 3, io_ret.
    rewrite Hex, update_loop; [done|done|done]. }
  destruct s as [ex [|]]; simpl.
  - by rewrite Hbody.
  - by rewrite Hbody.
Qed.

(** Whatever the keys and whatever the attributes do, the loop of [update]
    goes through every key: a failure at a key is dropped there, and
    [update] returns [None]. *)
Lemma try_pass_ok (c : io unit) s h :
  exists s' t, try_except c (fun _ => mret tt) s h = (Ok tt, s', t).
Proof.
  unfold try_except. destruct (c s h) as [[[[]|e] s1] t1]; by eexists _, _.
Qed.

Lemma for_each_try_pass_ok {A} (l : list A) (body : A -> io unit) s h :
  exists s' t,
    for_each l (fun x => try_except (body x) (fun _ => mret tt)) s h
    = (Ok tt, s', t).
Proof.
  revert s h. induction l as [|x l IH]; intros s h; [by eexists _, _|].
  rewrite for_each_cons.
  destruct (try_pass_ok (body x) s h) as (s1 & t1 & ->).
  destruct (IH s1 (h ++ t1)) as (s2 & t2 & ->). by eexists _, _.
Qed.

(** [update] never raises: it returns None whatever the keys of the cache
    are and whatever reading or calling an attribute does. *)
Lemma update_never_raises s h :
  exists s' t,
    complete (update respond process getattr_other) s h = (Ok PNone, s', t).
Proof.
  assert (Hbody : forall s0, exists s' t,
            update_body respond process getattr_other s0 h = (Ok PNone, s', t)).
  { intros s0. unfold update_body, get_state, put_state.
    unfold mbind at 1 2 3, io_bind at 1 2 3.
    edestruct (for_each_try_pass_ok (dict_keys (extras s0))) as (s1 & t1 & ->).
    by eexists _, _. }
  unfold update. rewrite complete_async_func.
  destruct (running s).
  - apply Hbody.
  - destruct (Hbody (set_running true s)) as (s1 & t1 & ->). by eexists _, _.
Qed.

(** *** The collection accessors *)

(** C7.  The Forced accessor of each of the seven item collections makes one
    query of the items path with [Recursive] true, [IncludeItemTypes] the
    item type of the collection, [Fields] its projection, [SortBy] the sort
    name and [SortOrder] ascending; the answer goes through the Resolver,
    and the resolved sequence is stored under the key of the collection,
    whatever was there, and returned. *)
Theorem forced_item_accessor (c : item_collection) s h items v t :
  let q := GetJson "/Users/{UserId}/Items"
             [("remote", PBool false); ("format", PStr "json");
              ("Recursive", PStr "true"); ("IncludeItemTypes", PStr (item_type c));
              ("Fields", PStr (item_fields c)); ("SortBy", PStr "SortName");
              ("SortOrder", PStr "Ascending")] in
  respond h q = Ok items ->
  process items (h ++ [q]) = (Ok v, t) ->
  exists s',
    complete (forced respond process (Items c)) s h = (Ok v, s', q :: t) /\
    s' = set_extras (dict_set (extras s) (item_key c) v) s /\
    dict_get (extras s') (item_key c) = Some v.
Proof.
  intros q Hq Hp. eexists. split; [|split; [reflexivity|]].
  - rewrite forced_run. simpl collection_query. fold q. by rewrite Hq, Hp.
  - apply dict_get_set_eq.
Qed.

(** C4.  The Cached accessor of a collection returns the cached sequence
    when the cache holds a non-empty one under the key, making no request;
    otherwise it does what the Forced accessor does: the freshly resolved
    sequence is stored under the key and returned. *)
Theorem cached_accessor (c : collection) s h :
  (forall v,
     dict_get (extras s) (collection_key c) = Some v -> truthy v = true ->
     complete (cached respond process c) s h = (Ok v, s, []))
  /\ ((forall v,
        dict_get (extras s) (collection_key c) = Some v -> truthy v = false) ->
      complete (cached respond process c) s h
      = complete (forced respond process c) s h
      /\ forall items v t,
          respond h (collection_query c) = Ok items ->
          process items (h ++ [collection_query c]) = (Ok v, t) ->
          exists s',
            complete (cached respond process c) s h
            = (Ok v, s', collection_query c :: t) /\
            s' = set_extras (dict_set (extras s) (collection_key c) v) s /\
            dict_get (extras s') (collection_key c) = Some v).
Proof.
  split.
  - intros v Hv Ht. by rewrite cached_run, Hv, Ht.
  - intros Hmiss.
    assert (Heq : complete (cached respond process c) s h
                  = complete (forced respond process c) s h).
    { rewrite cached_run.
      destruct (dict_get (extras s) (collection_key c)) as [v|] eqn:Hv; [|done].
      by rewrite (Hmiss v eq_refl). }
    split; [exact Heq|].
    intros items v t Hq Hp. eexists. split; [|split; [reflexivity|]].
    + by rewrite Heq, forced_run, Hq, Hp.
    + apply dict_get_set_eq.
Qed.

(** What a Forced accessor leaves when it returns a value: the value is in
    the cache under the key. *)
Lemma forced_returns c s h v s1 t1 :
  complete (forced respond process c) s h = (Ok v, s1, t1) ->
  s1 = set_extras (dict_set (extras s) (collection_key c) v) s.
Proof.
  rewrite forced_run.
  destruct (respond h (collection_query c)) as [items|e]; [|done].
  destruct (process items (h ++ [collection_query c])) as [[v'|e] t]; [|done].
  by intros [= -> <- _].
Qed.

(** Every call of a Forced accessor starts by its query. *)
Lemma forced_requests c s h :
  exists r s' t,
    complete (forced respond process c) s h = (r, s', collection_query c :: t).
Proof.
  rewrite forced_run.
  destruct (respond h (collection_query c)) as [items|e]; [|by eexists _, _, _].
  destruct (process items (h ++ [collection_query c])) as [[v'|e] t];
    by eexists _, _, _.
Qed.

(** C3, amended.  After a Forced accessor has fetched and resolved a
    non-empty sequence, the Cached accessor of the same collection returns
    that sequence and makes no request; and after [update], on a cache whose
    keys name collection properties, the cache is empty, so the next call of
    the Cached accessor is a call of the Forced accessor and makes its
    query. *)
Theorem cache_after_force_and_update (c : collection) s h :
  (forall v s1 t1,
     complete (forced respond process c) s h = (Ok v, s1, t1) ->
     truthy v = true ->
     complete (cached respond process c) s1 (h ++ t1) = (Ok v, s1, []))
  /\ (Forall (fun k => k ∈ property_names) (dict_keys (extras s)) ->
      exists s2 t2,
        complete (update respond process getattr_other) s h = (Ok PNone, s2, t2) /\
        complete (cached respond process c) s2 (h ++ t2)
        = complete (forced respond process c) s2 (h ++ t2) /\
        exists r s3 t3,
          complete (cached respond process c) s2 (h ++ t2)
          = (r, s3, collection_query c :: t3)).
Proof.
  split.
  - intros v s1 t1 Hf Ht. apply forced_returns in Hf as ->.
    rewrite cached_run. simpl. by rewrite dict_get_set_eq, Ht.
  - intros Hkeys. eexists _, _. split; [by apply update_run|].
    assert (Heq : complete (cached respond process c) (set_extras [] s) (h ++ [])
                  = complete (forced respond process c) (set_extras [] s) (h ++ [])).
    { by rewrite cached_run. }
    split; [exact Heq|]. rewrite Heq. apply forced_requests.
Qed.

(** *** [search] *)

Lemma mapM_sort_key sort_map items :
  Forall is_entity items ->
  mapM (sort_key type sort_map (dict_len sort_map)) items
  = Ok (priority type sort_map <$> items).
Proof.
  induction 1 as [|x items Hx Hitems IH]; [done|].
  destruct x; try done. cbn. cbn in IH. by rewrite IH.
Qed.

(** [sorted] on a list of entities is the stable sort by [priority]. *)
Lemma sorted_entities sort_map items :
  Forall is_entity items ->
  sorted (PList items) (sort_key type sort_map (dict_len sort_map))
  = Ok (PList (sort_on (priority type sort_map) items)).
Proof.
  intros Hitems. unfold sorted. simpl iter.
  unfold mbind at 1, result_bind at 1.
  rewrite (mapM_sort_key _ _ Hitems).
  unfold mbind, result_bind, mret, result_ret.
  by rewrite zip_decorate, sort_by_key_decorate, snd_decorate.
Qed.

Lemma search_body_run query sort_map strict_sort s h :
  search_body respond process type query sort_map strict_sort s h =
  let q := GetJson "/Search/Hints/" (search_params query sort_map strict_sort) in
  match respond h q with
  | Ok json =>
      match getitem json "SearchHints" with
      | Ok hints =>
          match process hints (h ++ [q]) with
          | (Ok items, t) =>
              (sorted items (sort_key type sort_map (dict_len sort_map)), s, q :: t)
          | (Raise e, t) => (Raise e, s, q :: t)
          end
      | Raise e => (Raise e, s, [q])
      end
  | Raise e => (Raise e, s, [q])
  end.
Proof.
  unfold search_body, getJson, send, lift_result, lift_tr, mbind, io_bind.
  cbv zeta.
  destruct (respond h _) as [json|e]; [|done].
  destruct (getitem json "SearchHints") as [hints|e]; simpl; [|done].
  rewrite app_nil_r.
  destruct (process hints _) as [[items|e] t]; simpl; [|done].
  by rewrite app_nil_r.
Qed.

Lemma search_run query sort_map strict_sort s h :
  complete (search respond process type query sort_map strict_sort) s h =
  let q := GetJson "/Search/Hints/" (search_params query sort_map strict_sort) in
  match respond h q with
  | Ok json =>
      match getitem json "SearchHints" with
      | Ok hints =>
          match process hints (h ++ [q]) with
          | (Ok items, t) =>
              (sorted items (sort_key type sort_map (dict_len sort_map)), s, q :: t)
          | (Raise e, t) => (Raise e, s, q :: t)
          end
      | Raise e => (Raise e, s, [q])
      end
  | Raise e => (Raise e, s, [q])
  end.
Proof.
  unfold search. rewrite complete_async_func, !search_body_run. cbv zeta.
  destruct s as [ex [|]]; simpl; [done|].
  destruct (respond h _) as [json|e]; [|done].
  destruct (getitem json "SearchHints") as [hints|e]; [|done].
  by destruct (process hints _) as [[items|e] t].
Qed.

Lemma unmapped_priority sort_map x :
  ~ mapped type sort_map x -> priority type sort_map x = dict_len sort_map.
Proof.
  destruct x; simpl; try done. unfold dict_get_or.
  destruct (dict_get sort_map _); [|done].
  intros []. by eexists.
Qed.

Lemma mapped_priority sort_map x :
  (forall k v, dict_get sort_map k = Some v -> v < dict_len sort_map) ->
  mapped type sort_map x -> priority type sort_map x < dict_len sort_map.
Proof.
  intros Hsmall. destruct x; simpl; try done. unfold dict_get_or.
  intros [v Hv]. rewrite Hv. by eapply Hsmall.
Qed.

(** C1, amended.  The hits resolved through the Resolver are sorted stably by
    the key [sort_map.get(x.type, len(sort_map))]: the result is a
    permutation of the hits in ascending order of that key, and hits of one
    key keep their order; so the entities whose type tag is not a key of
    [sort_map], which all have the key [len(sort_map)], keep their relative
    order.  When every priority in [sort_map] is smaller than
    [len(sort_map)], they come after all the entities whose type tag is
    mapped. *)
Theorem search_sorts_hits query sort_map strict_sort s h json hints items t :
  let q := GetJson "/Search/Hints/" (search_params query sort_map strict_sort) in
  respond h q = Ok json ->
  getitem json "SearchHints" = Ok hints ->
  process hints (h ++ [q]) = (Ok (PList items), t) ->
  Forall is_entity items ->
  exists sorted_items,
    complete (search respond process type query sort_map strict_sort) s h
    = (Ok (PList sorted_items), s, q :: t) /\
    sorted_items ≡ₚ items /\
    StronglySorted
      (fun x y => priority type sort_map x <= priority type sort_map y)
      sorted_items /\
    (forall k,
       filter (fun x => priority type sort_map x = k) sorted_items
       = filter (fun x => priority type sort_map x = k) items) /\
    filter (fun x => ~ mapped type sort_map x) sorted_items
    = filter (fun x => ~ mapped type sort_map x) items /\
    ((forall k v, dict_get sort_map k = Some v -> v < dict_len sort_map) ->
     exists mapped_items,
       sorted_items
       = mapped_items ++ filter (fun x => ~ mapped type sort_map x) items /\
       Forall (mapped type sort_map) mapped_items).
Proof.
  intros q Hq Hhints Hp Hitems.
  exists (sort_on (priority type sort_map) items).
  split; [|split; [|split; [|split; [|split]]]].
  - rewrite search_run. cbv zeta. fold q. rewrite Hq, Hhints, Hp.
    by rewrite sorted_entities.
  - apply sort_on_perm.
  - apply sort_on_sorted.
  - intros k. apply sort_on_stable.
  - rewrite <- (list_filter_filter_l _
      (fun x => priority type sort_map x = dict_len sort_map)
      (sort_on _ items)) by apply unmapped_priority.
    rewrite sort_on_stable.
    by rewrite list_filter_filter_l by apply unmapped_priority.
  - intros Hsmall.
    assert (Hiff : forall x, priority type sort_map x = dict_len sort_map
                             <-> ~ mapped type sort_map x).
    { intros x. split; [|apply unmapped_priority].
      intros Heq Hm. apply (mapped_priority _ _ Hsmall) in Hm. lia. }
    eexists. split.
    + rewrite (sort_on_split _ (dict_len sort_map)).
      * f_equal. by apply list_filter_iff.
      * apply list.Forall_forall. intros x _.
        destruct (decide (mapped type sort_map x)) as [Hm|Hm].
        -- apply (mapped_priority _ _ Hsmall) in Hm. lia.
        -- apply unmapped_priority in Hm. lia.
    + apply list.Forall_forall. intros x Hx.
      rewrite sort_on_perm in Hx. apply list_elem_of_filter in Hx as [Hlt _].
      destruct (decide (mapped type sort_map x)) as [Hm|Hm]; [done|].
      apply unmapped_priority in Hm. lia.
Qed.

(** C6.  With [strict_sort] set, the request [search] hands to the connector
    carries [IncludeItemTypes], the keys of [sort_map] joined by commas in
    their order; without it the request has the two parameters [remote] and
    [searchTerm] and no [IncludeItemTypes]. *)
Theorem search_request query sort_map s h :
  (exists r s' t,
     complete (search respond process type query sort_map true) s h
     = (r, s',
        GetJson "/Search/Hints/"
          [("remote", PBool false); ("searchTerm", PStr query);
           ("IncludeItemTypes", PStr (String.concat "," (dict_keys sort_map)))]
        :: t))
  /\ (exists r s' t params,
       complete (search respond process type query sort_map false) s h
       = (r, s', GetJson "/Search/Hints/" params :: t) /\
       params = [("remote", PBool false); ("searchTerm", PStr query)] /\
       dict_get params "IncludeItemTypes" = None).
Proof.
  split.
  - rewrite search_run. cbv zeta.
    change (search_params query sort_map true)
      with [("remote", PBool false); ("searchTerm", PStr query);
            ("IncludeItemTypes", PStr (String.concat "," (dict_keys sort_map)))].
    destruct (respond h _) as [json|e]; [|by eexists _, _, _].
    destruct (getitem json "SearchHints") as [hints|e]; [|by eexists _, _, _].
    destruct (process hints _) as [[items|e] t]; by eexists _, _, _.
  - rewrite search_run. cbv zeta.
    change (search_params query sort_map false)
      with [("remote", PBool false); ("searchTerm", PStr query)].
    destruct (respond h _) as [json|e]; [|by eexists _, _, _, _].
    destruct (getitem json "SearchHints") as [hints|e]; [|by eexists _, _, _, _].
    destruct (process hints _) as [[items|e] t]; by eexists _, _, _, _.
Qed.

(** *** [info] *)

(** [info] on a decode failure that comes out of the Resolver, and [info]
    without an identifier. *)
Lemma info_lookup obj_id s h :
  (forall t,
     truthy obj_id = true ->
     process obj_id h = (Raise JSONDecodeError, t) ->
     complete (info respond process obj_id) s h
     = (Raise (LookupError "Error object with that id does not exist" obj_id),
        s, t))
  /\ complete (info respond process PNone) s h = (respond h Info, s, [Info]).
Proof.
  split.
  - intros t Htruthy Hp. unfold info. rewrite complete_async_func.
    unfold info_body. rewrite Htruthy.
    unfold try_except, lift_tr, raise. rewrite Hp.
    destruct s as [ex [|]]; simpl; by rewrite app_nil_r.
  - unfold info. rewrite complete_async_func. simpl.
    unfold connector_info, send. by destruct s as [ex [|]].
Qed.

End EmbyFacts.

(** ** The Resolver *)

Section ResolverFacts.

Context (respond : list request -> request -> result pyval).
Context (classify : string -> eclass).
Context (unwrap : pyval -> result (pydict pyval)).
Context (schedule : nat -> list nat).

Local Abbreviation resolves_to := (resolution_of respond classify unwrap).

(** The fetch of every identifier of the sequence is answered by a record. *)
Definition fetches_answered (l : list pyval) : Prop :=
  forall h id, PStr id ∈ l ->
    exists raw record, respond h (FetchRaw id) = Ok raw /\ unwrap raw = Ok record.

(** The slots hold resolutions of the elements at their own indices. *)
Definition slots_ok (l : list pyval) (slots : list (option pyval)) : Prop :=
  length slots = length l /\
  forall i r, slots !! i = Some (Some r) ->
    exists x, l !! i = Some x /\ resolves_to x r.

Definition filled (slots : list (option pyval)) (i : nat) : Prop :=
  exists r, slots !! i = Some (Some r).

Lemma resolve_element l x h :
  fetches_answered l -> x ∈ l -> is_element x ->
  exists r t,
    resolve respond classify unwrap x h = (Ok r, t) /\ resolves_to x r.
Proof.
  intros Hans Hin Hx. destruct x; try done.
  - destruct (Hans h s Hin) as (raw & record & Hraw & Hrec).
    exists (construct classify record), [FetchRaw s]. split.
    + unfold resolve, fetchRaw, tr_result, mbind, tr_bind.
      rewrite Hraw. simpl. by rewrite Hrec.
    + simpl. by eexists _, _, _.
  - by eexists _, _.
  - by eexists _, _.
Qed.

Lemma resolve_in_order_cons l i order slots h :
  resolve_in_order respond classify unwrap l (i :: order) slots h =
  match resolve_into respond classify unwrap l slots i h with
  | (Ok slots', t1) =>
      let '(r, t2) :=
        resolve_in_order respond classify unwrap l order slots' (h ++ t1) in
      (r, t1 ++ t2)
  | (Raise e, t1) => (Raise e, t1)
  end.
Proof. reflexivity. Qed.

Lemma resolve_into_ok l slots i h :
  fetches_answered l -> Forall is_element l -> slots_ok l slots ->
  exists slots' t,
    resolve_into respond classify unwrap l slots i h = (Ok slots', t) /\
    slots_ok l slots' /\
    (forall j, (j = i \/ filled slots j) -> (j < length l)%nat -> filled slots' j).
Proof.
  intros Hans Hl [Hlen Hok]. unfold resolve_into.
  destruct (l !! i) as [x|] eqn:Hi.
  - assert (Hin : x ∈ l) by (by eapply list_elem_of_lookup_2).
    assert (Hx : is_element x) by (by eapply (proj1 (list.Forall_forall _ _) Hl)).
    destruct (resolve_element l x h Hans Hin Hx) as (r & t & Hr & Hres).
    exists (<[i := Some r]> slots), t. split; [|split].
    + unfold mbind, tr_bind. rewrite Hr. simpl. by rewrite app_nil_r.
    + split; [by rewrite length_insert|].
      intros j r' Hj. apply list_lookup_insert_Some in Hj as [(-> & [= ->] & _)|[Hne Hj]].
      * by exists x.
      * by apply Hok.
    + intros j [->|[r' Hj]] Hlt.
      * exists r. apply list_lookup_insert_eq. by rewrite Hlen.
      * destruct (decide (j = i)) as [->|Hne].
        -- exists r. apply list_lookup_insert_eq. by rewrite Hlen.
        -- exists r'. by rewrite list_lookup_insert_ne.
  - exists slots, []. split; [done|]. split; [done|].
    intros j [->|Hj] Hlt; [|done].
    apply lookup_ge_None in Hi. lia.
Qed.

Lemma resolve_in_order_ok l order slots h :
  fetches_answered l -> Forall is_element l -> slots_ok l slots ->
  exists slots' t,
    resolve_in_order respond classify unwrap l order slots h = (Ok slots', t) /\
    slots_ok l slots' /\
    (forall j, (j ∈ order \/ filled slots j) -> (j < length l)%nat ->
               filled slots' j).
Proof.
  intros Hans Hl. revert slots h.
  induction order as [|i order IH]; intros slots h Hok.
  - exists slots, []. split; [done|]. split; [done|].
    intros j [Hj|Hj] _; [by apply elem_of_nil in Hj | done].
  - destruct (resolve_into_ok l slots i h Hans Hl Hok) as (s1 & t1 & H1 & Hok1 & Hf1).
    destruct (IH s1 (h ++ t1) Hok1) as (s2 & t2 & H2 & Hok2 & Hf2).
    exists s2, (t1 ++ t2). split; [|split; [done|]].
    + by rewrite resolve_in_order_cons, H1, H2.
    + intros j Hj Hlt. apply Hf2; [|done].
      destruct Hj as [Hj|Hj].
      * apply elem_of_cons in Hj as [->|Hj]; [|by left].
        right. apply Hf1; [by left | done].
      * right. apply Hf1; [by right | done].
Qed.

Lemma collect_filled (slots : list (option pyval)) :
  (forall i, (i < length slots)%nat -> filled slots i) ->
  exists rs, collect slots = Ok rs /\ slots = Some <$> rs.
Proof.
  intros Hfilled. unfold collect.
  assert (Hall : Forall (fun o => is_Some o) slots).
  { apply list.Forall_forall. intros o Ho.
    apply list_elem_of_lookup_1 in Ho as [i Hi].
    destruct (Hfilled i) as [r Hr]; [by eapply lookup_lt_Some|].
    rewrite Hi in Hr. injection Hr as ->. by eexists. }
  clear Hfilled. induction Hall as [|o slots [r ->] Hall (rs & Hrs & ->)].
  - by exists [].
  - exists (r :: rs). split; [|done].
    destruct (mapM id (Some <$> rs)) as [rs'|] eqn:E; [|done].
    injection Hrs as <-. cbn. cbn in E. by rewrite E.
Qed.

(** C8.  On a sequence of [N] identifiers, records and entities whose
    fetches are answered, [process] returns a sequence of [N] entities, the
    one at each index being the resolution of the element at that index,
    whatever the order in which the elements are resolved. *)
Theorem process_preserves_order (l : list pyval) h :
  schedule (length l) ≡ₚ seq 0 (length l) ->
  Forall is_element l ->
  fetches_answered l ->
  exists rs t,
    process respond classify unwrap schedule (PList l) h = (Ok (PList rs), t) /\
    length rs = length l /\
    forall i x, l !! i = Some x ->
      exists r, rs !! i = Some r /\ is_entity r /\ resolves_to x r.
Proof.
  intros Hperm Hl Hans.
  assert (Hinit : slots_ok l (replicate (length l) None)).
  { split; [by rewrite length_replicate|].
    intros i r Hi. apply lookup_replicate in Hi as [[=] _]. }
  destruct (resolve_in_order_ok l (schedule (length l)) _ h Hans Hl Hinit)
    as (slots & t & Hrun & [Hlen Hok] & Hfilled).
  destruct (collect_filled slots) as (rs & Hrs & ->).
  { intros i Hi. apply Hfilled; [|lia]. left.
    rewrite Hperm. apply elem_of_seq. lia. }
  exists rs, t. split; [|split].
  - unfold process, mbind, tr_bind. rewrite Hrun.
    unfold tr_result. rewrite Hrs. simpl. by rewrite app_nil_r.
  - by rewrite length_fmap in Hlen.
  - intros i x Hi.
    destruct (rs !! i) as [r|] eqn:Hr.
    + exists r. split; [done|].
      destruct (Hok i r) as (x' & Hx' & Hres).
      { by rewrite list_lookup_fmap, Hr. }
      rewrite Hi in Hx'. injection Hx' as <-. split; [|done].
      destruct x; try done; simpl in Hres.
      * by destruct Hres as (? & ? & ? & _ & _ & ->).
      * by subst r.
      * by subst r.
    + apply lookup_ge_None in Hr. apply lookup_lt_Some in Hi.
      rewrite length_fmap in Hlen. lia.
Qed.

(** C9.  [process] on an entity returns the entity and makes no request. *)
Theorem process_entity cls object_dict h :
  process respond classify unwrap schedule (PObject cls object_dict) h
  = (Ok (PObject cls object_dict), []).
Proof. reflexivity. Qed.

End ResolverFacts.

(** ** [class Episode] *)

(** C10.  On an instance of [Episode] whose [object_dict] has no
    ["IndexNumber"], [index_number] is 1, and so is [episode_number]. *)
Theorem episode_index_number_default (object_dict : pydict pyval) :
  dict_get object_dict "IndexNumber" = None ->
  EpisodeClass.index_number (PObject Episode object_dict) = Ok (PInt 1) /\
  EpisodeClass.episode_number (PObject Episode object_dict) = Ok (PInt 1).
Proof.
  intros Hnone. unfold EpisodeClass.episode_number, EpisodeClass.index_number.
  simpl. unfold dict_get_or. by rewrite Hnone.
Qed.

(** * The statements on the sample server *)

Lemma episode_index_number_default_witness :
  EpisodeClass.index_number (PObject Episode [("Id", PStr "e1")]) = Ok (PInt 1) /\
  EpisodeClass.episode_number (PObject Episode [("Id", PStr "e1")]) = Ok (PInt 1).
Proof. apply episode_index_number_default. reflexivity. Defined.

(** The default map of [search] numbers its five types from 0, so every
    priority in it is below its size. *)
Lemma default_sort_map_small k v :
  dict_get default_sort_map k = Some v -> v < dict_len default_sort_map.
Proof.
  unfold default_sort_map. simpl.
  repeat (destruct (String.eqb k _); [intros [= <-]; reflexivity|]).
  intros [=].
Qed.

(** The example of the specification: with the map Movie 0, Series 1 the
    hits Series A, Movie B, Movie C, Person D come out as B, C, A, D. *)
Example search_example :
  complete
    (search (Sample.server Sample.hits (PList []))
       (Sample.resolver Sample.hits (PList [])) Sample.type_tag
       "x" [("Movie", 0); ("Series", 1)] false)
    Sample.start []
  = (Ok (PList [Sample.entity "b" "Movie" "B"; Sample.entity "c" "Movie" "C";
                Sample.entity "a" "Series" "A"; Sample.entity "d" "Person" "D"]),
     Sample.start,
     [GetJson "/Search/Hints/" [("remote", PBool false); ("searchTerm", PStr "x")]]).
Proof. vm_compute. reflexivity. Qed.

Lemma search_sorts_hits_witness :
  exists sorted_items mapped_items,
    complete
      (search (Sample.server Sample.hits (PList []))
         (Sample.resolver Sample.hits (PList [])) Sample.type_tag
         "x" [("Movie", 0); ("Series", 1)] false)
      Sample.start []
    = (Ok (PList sorted_items), Sample.start,
       [GetJson "/Search/Hints/" [("remote", PBool false); ("searchTerm", PStr "x")]]) /\
    sorted_items = mapped_items ++ [Sample.entity "d" "Person" "D"] /\
    Forall (mapped Sample.type_tag [("Movie", 0); ("Series", 1)]) mapped_items.
Proof.
  destruct (search_sorts_hits
              (Sample.server Sample.hits (PList []))
              (Sample.resolver Sample.hits (PList [])) Sample.type_tag
              "x" [("Movie", 0); ("Series", 1)] false Sample.start []
              (PDict [("SearchHints", Sample.hits)]) Sample.hits
              [Sample.entity "a" "Series" "A"; Sample.entity "b" "Movie" "B";
               Sample.entity "c" "Movie" "C"; Sample.entity "d" "Person" "D"]
              [] eq_refl eq_refl eq_refl)
    as (sorted_items & Hrun & _ & _ & _ & _ & Hlast).
  { repeat constructor. }
  destruct Hlast as (mapped_items & Heq & Hmapped).
  { intros k v. simpl.
    destruct (String.eqb k "Movie"); [intros [= <-]; reflexivity|].
    destruct (String.eqb k "Series"); [intros [= <-]; reflexivity|].
    intros [=]. }
  exists sorted_items, mapped_items. split; [exact Hrun|]. split; [exact Heq|].
  exact Hmapped.
Defined.

(** C1, as stated, fails: with the map Movie 5, of size 1, the person, whose
    type is not mapped, has the key 1 and comes out in front of the movie. *)
Lemma search_unmapped_before_mapped :
  exists result,
    complete
      (search (Sample.server Sample.two_hits (PList []))
         (Sample.resolver Sample.two_hits (PList [])) Sample.type_tag
         "x" [("Movie", 5)] false)
      Sample.start []
    = (Ok (PList result), Sample.start,
       [GetJson "/Search/Hints/" [("remote", PBool false); ("searchTerm", PStr "x")]]) /\
    result = [Sample.entity "d" "Person" "D"; Sample.entity "b" "Movie" "B"] /\
    ~ unmapped_last Sample.type_tag [("Movie", 5)] result.
Proof.
  eexists. split; [vm_compute; reflexivity|]. split; [reflexivity|].
  intros Hlast.
  assert (1 < 0)%nat; [|lia].
  apply (Hlast 1%nat 0%nat (Sample.entity "b" "Movie" "B")
           (Sample.entity "d" "Person" "D") eq_refl eq_refl).
  - simpl. by eexists.
  - exact I.
  - simpl. intros [v Hv]. discriminate Hv.
Qed.

(** C2: what [update] does on a cache that holds the movies.  The cache is
    emptied and no request is made, whereas the Forced accessor of the
    movies, had it run, would have made its query and filled the cache. *)
Theorem update_refetches_nothing :
  complete
    (update (Sample.server Sample.hits Sample.library)
       (Sample.resolver Sample.hits Sample.library) Sample.no_attr)
    Sample.movies_cached []
  = (Ok PNone, Sample.start, [])
  /\ complete
       (movies_force (Sample.server Sample.hits Sample.library)
          (Sample.resolver Sample.hits Sample.library))
       Sample.start []
     = (Ok Sample.resolved_library, Sample.movies_cached,
        [collection_query (Items Movies)]).
Proof. split; vm_compute; reflexivity. Qed.

(** C3, as stated, fails on an empty collection: the Forced accessor stores
    the empty sequence, and the Cached accessor that follows makes the query
    again. *)
Lemma cached_after_empty_force_refetches :
  exists s1 t1,
    complete
      (forced (Sample.server Sample.hits (PList []))
         (Sample.resolver Sample.hits (PList [])) (Items Movies))
      Sample.start []
    = (Ok (PList []), s1, t1) /\
    complete
      (cached (Sample.server Sample.hits (PList []))
         (Sample.resolver Sample.hits (PList [])) (Items Movies))
      s1 ([] ++ t1)
    = (Ok (PList []), s1, [collection_query (Items Movies)]).
Proof. eexists _, _. split; vm_compute; reflexivity. Qed.

Lemma cache_after_force_and_update_witness :
  complete
    (cached (Sample.server Sample.hits Sample.library)
       (Sample.resolver Sample.hits Sample.library) (Items Movies))
    Sample.movies_cached ([] ++ [collection_query (Items Movies)])
  = (Ok Sample.resolved_library, Sample.movies_cached, [])
  /\ exists s2 t2,
       complete
         (update (Sample.server Sample.hits Sample.library)
            (Sample.resolver Sample.hits Sample.library) Sample.no_attr)
         Sample.movies_cached []
       = (Ok PNone, s2, t2) /\
       exists r s3 t3,
         complete
           (cached (Sample.server Sample.hits Sample.library)
              (Sample.resolver Sample.hits Sample.library) (Items Movies))
           s2 ([] ++ t2)
         = (r, s3, collection_query (Items Movies) :: t3).
Proof.
  split.
  - apply (proj1 (cache_after_force_and_update
                    (Sample.server Sample.hits Sample.library)
                    (Sample.resolver Sample.hits Sample.library) Sample.no_attr
                    (Items Movies) Sample.start [])); reflexivity.
  - destruct (proj2 (cache_after_force_and_update
                       (Sample.server Sample.hits Sample.library)
                       (Sample.resolver Sample.hits Sample.library) Sample.no_attr
                       (Items Movies) Sample.movies_cached []))
      as (s2 & t2 & Hupdate & _ & Hfetch).
    + repeat constructor.
    + by exists s2, t2.
Defined.

Lemma cached_accessor_witness :
  complete
    (cached (Sample.server Sample.hits Sample.library)
       (Sample.resolver Sample.hits Sample.library) (Items Movies))
    Sample.movies_cached []
  = (Ok Sample.resolved_library, Sample.movies_cached, [])
  /\ exists s',
       complete
         (cached (Sample.server Sample.hits Sample.library)
            (Sample.resolver Sample.hits Sample.library) (Items Movies))
         Sample.start []
       = (Ok Sample.resolved_library, s', [collection_query (Items Movies)]) /\
       s' = Sample.movies_cached /\
       dict_get (extras s') "movies" = Some Sample.resolved_library.
Proof.
  split.
  - apply (proj1 (cached_accessor
                    (Sample.server Sample.hits Sample.library)
                    (Sample.resolver Sample.hits Sample.library)
                    (Items Movies) Sample.movies_cached [])); reflexivity.
  - apply (proj2 (proj2 (cached_accessor
                    (Sample.server Sample.hits Sample.library)
                    (Sample.resolver Sample.hits Sample.library)
                    (Items Movies) Sample.start []) ltac:(intros v [=]))
             Sample.library Sample.resolved_library []); reflexivity.
Defined.

Lemma forced_item_accessor_witness :
  exists s',
    complete
      (forced (Sample.server Sample.hits Sample.library)
         (Sample.resolver Sample.hits Sample.library) (Items Movies))
      Sample.start []
    = (Ok Sample.resolved_library, s', [collection_query (Items Movies)]) /\
    s' = Sample.movies_cached /\
    dict_get (extras s') "movies" = Some Sample.resolved_library.
Proof.
  apply (forced_item_accessor
           (Sample.server Sample.hits Sample.library)
           (Sample.resolver Sample.hits Sample.library)
           Movies Sample.start [] Sample.library Sample.resolved_library []);
    reflexivity.
Defined.

(** A sequence of an identifier, a record and an entity, resolved last
    element first. *)
Lemma process_preserves_order_witness :
  exists rs t,
    process (Sample.server Sample.hits Sample.library) Sample.classify
      Sample.unwrap Sample.last_first
      (PList [PStr "m7"; Sample.record "e2" "Episode" "Pilot";
              Sample.entity "d" "Person" "D"]) []
    = (Ok (PList rs), t) /\
    length rs = 3%nat /\
    forall i x,
      [PStr "m7"; Sample.record "e2" "Episode" "Pilot";
       Sample.entity "d" "Person" "D"] !! i = Some x ->
      exists r, rs !! i = Some r /\ is_entity r /\
        resolution_of (Sample.server Sample.hits Sample.library) Sample.classify
          Sample.unwrap x r.
Proof.
  apply (process_preserves_order
           (Sample.server Sample.hits Sample.library) Sample.classify
           Sample.unwrap Sample.last_first
           [PStr "m7"; Sample.record "e2" "Episode" "Pilot";
            Sample.entity "d" "Person" "D"] []).
  - apply reverse_Permutation.
  - repeat constructor.
  - intros h id Hin. exists (Sample.record id "Movie" "A movie"). eexists.
    split; [|reflexivity].
    apply elem_of_cons in Hin as [[= ->]|Hin]; [reflexivity|].
    apply elem_of_cons in Hin as [[=]|Hin].
    apply elem_of_cons in Hin as [[=]|Hin].
    by apply elem_of_nil in Hin.
Defined.

Example process_last_first_example :
  process (Sample.server Sample.hits Sample.library) Sample.classify
    Sample.unwrap Sample.last_first
    (PList [PStr "m7"; Sample.record "e2" "Episode" "Pilot";
            Sample.entity "d" "Person" "D"]) []
  = (Ok (PList [Sample.entity "m7" "Movie" "A movie";
                Sample.entity "e2" "Episode" "Pilot";
                Sample.entity "d" "Person" "D"]),
     [FetchRaw "m7"]).
Proof. vm_compute. reflexivity. Qed.

(** * Further properties of the code *)

(** ** Dictionaries *)

Lemma dict_get_None_keys {V} (d : pydict V) k :
  dict_get d k = None <-> k ∉ dict_keys d.
Proof.
  induction d as [|[k' v'] d IH]; simpl.
  - split; [intros _; apply not_elem_of_nil | done].
  - rewrite not_elem_of_cons.
    destruct (String.eqb_spec k k') as [->|Hne]; [by split; [|intros []]|].
    rewrite IH. split; [by split | by intros []].
Qed.

Lemma dict_keys_set {V} (d : pydict V) k v :
  dict_keys (dict_set d k v)
  = if decide (k ∈ dict_keys d) then dict_keys d else dict_keys d ++ [k].
Proof.
  induction d as [|[k' v'] d IH].
  - destruct (decide _) as [Hin|_]; [by apply elem_of_nil in Hin | done].
  - cbn [dict_set]. destruct (String.eqb_spec k k') as [->|Hne].
    + clear IH. destruct (decide (k' ∈ dict_keys ((k', v') :: d))) as [_|Hout];
        [reflexivity|].
      exfalso. apply Hout. apply list_elem_of_here.
    + change (dict_keys ((k', v') :: dict_set d k v))
        with (k' :: dict_keys (dict_set d k v)).
      change (dict_keys ((k', v') :: d)) with (k' :: dict_keys d).
      rewrite IH.
      destruct (decide (k ∈ dict_keys d)) as [Hin|Hin],
               (decide (k ∈ k' :: dict_keys d)) as [Hin'|Hin']; try done.
      * exfalso. apply Hin'. by apply list_elem_of_further.
      * apply elem_of_cons in Hin' as [->|Hin']; done.
Qed.

Lemma dict_set_wf {V} (d : pydict V) k v : dict_wf d -> dict_wf (dict_set d k v).
Proof.
  unfold dict_wf. rewrite dict_keys_set.
  destruct (decide (k ∈ dict_keys d)) as [Hin|Hin]; [done|].
  intros Hd. apply list.NoDup_app. split; [done|]. split.
  - intros x Hx Hk. apply list_elem_of_singleton in Hk as ->. done.
  - apply NoDup_singleton.
Qed.

Lemma dict_set_keys_Forall {V} (P : string -> Prop) (d : pydict V) k v :
  Forall P (dict_keys d) -> P k -> Forall P (dict_keys (dict_set d k v)).
Proof.
  intros Hd Hk. rewrite dict_keys_set.
  destruct (decide (k ∈ dict_keys d)); [done|].
  apply Forall_app. split; [done | by constructor].
Qed.

Lemma collection_key_property c : collection_key c ∈ property_names.
Proof. destruct c as [[]| |]; unfold property_names; simpl; repeat constructor. Qed.

Lemma collection_key_inj c c' : collection_key c = collection_key c' -> c = c'.
Proof. by destruct c as [[]| |], c' as [[]| |]. Qed.

(** ** The sort as buckets *)

Section Buckets.
Context {A : Type} (f : A -> Z).

(** With the keys among [0 .. n-1], the stable sort is the items of key 0 as
    they stood, then those of key 1, and so on. *)
Lemma sort_on_buckets (n : nat) (l : list A) :
  Forall (fun y => 0 <= f y < Z.of_nat n) l ->
  sort_on f l
  = concat ((fun k : nat => filter (fun y => f y = Z.of_nat k) l) <$> seq 0 n).
Proof.
  revert l. induction n as [|n IH]; intros l Hl.
  - destruct Hl as [|y l Hy _]; [done | lia].
  - rewrite (sort_on_split f (Z.of_nat n) l).
    + rewrite seq_S, fmap_app, concat_app. simpl. rewrite app_nil_r. f_equal.
      rewrite IH.
      * f_equal. apply list_fmap_ext. intros i k Hk.
        apply lookup_seq in Hk as [-> Hk].
        apply list_filter_filter_l. intros y Hy. lia.
      * apply list.Forall_forall. intros y Hy.
        apply list_elem_of_filter in Hy as [Hlt Hy].
        apply (proj1 (list.Forall_forall _ _) Hl) in Hy. lia.
    + eapply Forall_impl; [|exact Hl]. simpl. intros y Hy. lia.
Qed.

End Buckets.

(** ** The calls of [class Emby] *)

Section EmbyCalls.

Context (respond : list request -> request -> result pyval).
Context (process : pyval -> tr pyval).
Context (type : eclass -> pydict pyval -> string).
Context (getattr_other : string -> io attr).

(** [info], seen through. *)
Lemma info_run obj_id s h :
  complete (info respond process obj_id) s h =
  if truthy obj_id then
    match process obj_id h with
    | (Ok v, t) => (Ok v, s, t)
    | (Raise JSONDecodeError, t) =>
        (Raise (LookupError "Error object with that id does not exist" obj_id),
         s, t)
    | (Raise e, t) => (Raise e, s, t)
    end
  else (respond h Info, s, [Info]).
Proof.
  unfold info. rewrite complete_async_func. unfold info_body.
  destruct (truthy obj_id).
  - unfold try_except, lift_tr, raise.
    destruct s as [ex [|]]; simpl;
      destruct (process obj_id h) as [[v|[]] t]; simpl; by rewrite ?app_nil_r.
  - unfold connector_info, send. by destruct s as [ex [|]].
Qed.

(** A method that makes one query and hands the answer to the Resolver,
    seen through. *)
Lemma query_run path params s h :
  complete
    (async_func (json ← getJson respond path params; lift_tr (process json))) s h
  = match respond h (GetJson path params) with
    | Ok json =>
        let '(r, t) := process json (h ++ [GetJson path params]) in
        (r, s, GetJson path params :: t)
    | Raise e => (Raise e, s, [GetJson path params])
    end.
Proof.
  rewrite complete_async_func.
  unfold getJson, send, lift_tr, mbind, io_bind.
  destruct s as [ex [|]]; simpl;
    (destruct (respond h (GetJson path params)) as [json|e]; [|done]);
    by destruct (process json _) as [r t].
Qed.

(** *** The Forced and Cached accessors *)

(** X2.  When the query of a Forced accessor fails, or the Resolver fails on
    its answer, the accessor fails with the same exception and leaves the
    cache as it was, the entry of its own key included. *)
Theorem forced_failure_keeps_cache (c : collection) s h e :
  (respond h (collection_query c) = Raise e ->
   complete (forced respond process c) s h = (Raise e, s, [collection_query c]))
  /\ (forall items t,
       respond h (collection_query c) = Ok items ->
       process items (h ++ [collection_query c]) = (Raise e, t) ->
       complete (forced respond process c) s h
       = (Raise e, s, collection_query c :: t)).
Proof.
  split.
  - intros Hq. by rewrite forced_run, Hq.
  - intros items t Hq Hp. by rewrite forced_run, Hq, Hp.
Qed.

(** The two states a Forced accessor can leave. *)
Lemma forced_state c s h :
  exists r s' t,
    complete (forced respond process c) s h = (r, s', t) /\
    (s' = s \/
     exists v, s' = set_extras (dict_set (extras s) (collection_key c) v) s).
Proof.
  rewrite forced_run.
  destruct (respond h (collection_query c)) as [items|e];
    [|by eexists _, _, _; split; [|left]].
  destruct (process items (h ++ [collection_query c])) as [[v|e] t].
  - eexists _, _, _. split; [done|]. right. by exists v.
  - by eexists _, _, _; split; [|left].
Qed.

Lemma cached_state c s h :
  exists r s' t,
    complete (cached respond process c) s h = (r, s', t) /\
    (s' = s \/
     exists v, s' = set_extras (dict_set (extras s) (collection_key c) v) s).
Proof.
  rewrite cached_run.
  destruct (dict_get (extras s) (collection_key c)) as [v|];
    [destruct (truthy v)|]; try apply forced_state.
  by eexists _, _, _; split; [|left].
Qed.

(** X3.  Whatever its outcome, a call of the Forced or of the Cached accessor
    of a collection leaves the entries of all other keys, so those of the
    other collections, as they were. *)
Theorem accessor_frame (c : collection) s h r s' t :
  complete (forced respond process c) s h = (r, s', t) \/
  complete (cached respond process c) s h = (r, s', t) ->
  (forall k, k <> collection_key c ->
     dict_get (extras s') k = dict_get (extras s) k)
  /\ (forall c', c' <> c ->
       dict_get (extras s') (collection_key c')
       = dict_get (extras s) (collection_key c'))
  /\ running s' = running s.
Proof.
  intros Hrun.
  assert (Hs : s' = s \/
    exists v, s' = set_extras (dict_set (extras s) (collection_key c) v) s).
  { destruct Hrun as [Hrun|Hrun].
    - destruct (forced_state c s h) as (r0 & s0 & t0 & H0 & Hs).
      rewrite Hrun in H0. by injection H0 as _ -> _.
    - destruct (cached_state c s h) as (r0 & s0 & t0 & H0 & Hs).
      rewrite Hrun in H0. by injection H0 as _ -> _. }
  assert (Hframe : forall k, k <> collection_key c ->
            dict_get (extras s') k = dict_get (extras s) k).
  { intros k Hk. destruct Hs as [->|[v ->]]; [done|].
    simpl. by apply dict_get_set_ne. }
  split; [exact Hframe|]. split.
  - intros c' Hc'. apply Hframe. intros Heq.
    by apply collection_key_inj in Heq.
  - by destruct Hs as [->|[v ->]].
Qed.

(** X4.  Once a call of the Cached accessor has returned a non-empty
    sequence, the next call returns the same sequence, makes no request and
    leaves the state as it is. *)
Theorem cached_twice (c : collection) s h v s1 t1 :
  complete (cached respond process c) s h = (Ok v, s1, t1) ->
  truthy v = true ->
  complete (cached respond process c) s1 (h ++ t1) = (Ok v, s1, []).
Proof.
  intros Hrun Hv.
  assert (Hget : dict_get (extras s1) (collection_key c) = Some v).
  { rewrite cached_run in Hrun.
    destruct (dict_get (extras s) (collection_key c)) as [v0|] eqn:Hv0.
    - destruct (truthy v0) eqn:Ht0.
      + by injection Hrun as <- <- _.
      + apply forced_returns in Hrun as ->. simpl. apply dict_get_set_eq.
    - apply forced_returns in Hrun as ->. simpl. apply dict_get_set_eq. }
  by rewrite cached_run, Hget, Hv.
Qed.

(** *** [info], [search], [latest] and [nextUp] *)

(** The outcome and the requests of a method that makes one query and hands
    the answer to the Resolver. *)
Definition query_result (path : string) (params : pydict pyval)
    (h : list request) : result pyval * list request :=
  match respond h (GetJson path params) with
  | Ok json =>
      let '(r, t) := process json (h ++ [GetJson path params]) in
      (r, GetJson path params :: t)
  | Raise e => (Raise e, [GetJson path params])
  end.

Lemma query_run_result path params s h :
  complete
    (async_func (json ← getJson respond path params; lift_tr (process json))) s h
  = ((query_result path params h).1, s, (query_result path params h).2).
Proof.
  rewrite query_run. unfold query_result.
  destruct (respond h (GetJson path params)) as [json|e]; [|done].
  by destruct (process json _) as [r t].
Qed.

Definition is_query (op : operation) : Prop :=
  match op with
  | CallInfo _ | CallSearch _ _ _ | CallLatest _ _ _ | CallNextUp _ => True
  | _ => False
  end.

(** What a query gives and asks, as a function of the requests made before
    it alone. *)
Lemma query_outcome op :
  is_query op ->
  exists outcome : list request -> result pyval * list request,
    forall s h,
      perform respond process type getattr_other op s h
      = ((outcome h).1, s, (outcome h).2).
Proof.
  destruct op as [obj_id|query sort_map strict_sort|userId itemTypes groupItems
                 |userId| | |]; try done; intros _; simpl.
  - exists (fun h =>
      if truthy obj_id then
        match process obj_id h with
        | (Ok v, t) => (Ok v, t)
        | (Raise JSONDecodeError, t) =>
            (Raise (LookupError "Error object with that id does not exist" obj_id), t)
        | (Raise e, t) => (Raise e, t)
        end
      else (respond h Info, [Info])).
    intros s h. rewrite info_run.
    destruct (truthy obj_id); [|done].
    by destruct (process obj_id h) as [[v|[]] t].
  - exists (fun h =>
      let q := GetJson "/Search/Hints/" (search_params query sort_map strict_sort) in
      match respond h q with
      | Ok json =>
          match getitem json "SearchHints" with
          | Ok hints =>
              match process hints (h ++ [q]) with
              | (Ok items, t) =>
                  (sorted items (sort_key type sort_map (dict_len sort_map)), q :: t)
              | (Raise e, t) => (Raise e, q :: t)
              end
          | Raise e => (Raise e, [q])
          end
      | Raise e => (Raise e, [q])
      end).
    intros s h. rewrite search_run. cbv zeta.
    destruct (respond h _) as [json|e]; [|done].
    destruct (getitem json "SearchHints") as [hints|e]; [|done].
    by destruct (process hints _) as [[items|e] t].
  - exists (query_result "/Users/{UserId}/Items/Latest"
              [("remote", PBool false); ("userId", userId);
               ("IncludeItemTypes", PStr itemTypes);
               ("GroupItems", PBool groupItems)]).
    intros s h. unfold latest, latest_body. apply query_run_result.
  - exists (query_result "/Shows/NextUp"
              [("pass_uid", PBool true); ("remote", PBool false);
               ("userId", userId)]).
    intros s h. unfold nextUp, nextUp_body. apply query_run_result.
Qed.

(** X5.  [info], [search], [latest] and [nextUp] neither read nor write the
    cache: a call leaves the state as it found it, and its outcome and its
    requests are the same whatever the cache holds. *)
Theorem queries_ignore_cache op s s' h :
  is_query op ->
  exists r t,
    perform respond process type getattr_other op s h = (r, s, t) /\
    perform respond process type getattr_other op s' h = (r, s', t).
Proof.
  intros Hop. destruct (query_outcome op Hop) as [outcome Hout].
  exists (outcome h).1, (outcome h).2. by rewrite !Hout.
Qed.

(** X6.  [latest] asks for the latest items with [remote] false, the user,
    the item types and the grouping it was given, on every call; the answer
    goes through the Resolver and its outcome is returned, and a failure of
    the request is raised without a call of the Resolver. *)
Theorem latest_asks_and_resolves userId itemTypes groupItems s h :
  let q := GetJson "/Users/{UserId}/Items/Latest"
             [("remote", PBool false); ("userId", userId);
              ("IncludeItemTypes", PStr itemTypes);
              ("GroupItems", PBool groupItems)] in
  (forall e,
     respond h q = Raise e ->
     complete (latest respond process userId itemTypes groupItems) s h
     = (Raise e, s, [q]))
  /\ (forall json r t,
       respond h q = Ok json ->
       process json (h ++ [q]) = (r, t) ->
       complete (latest respond process userId itemTypes groupItems) s h
       = (r, s, q :: t)).
Proof.
  intros q. unfold latest, latest_body. fold q. split.
  - intros e Hq. unfold q in *. by rewrite query_run, Hq.
  - intros json r t Hq Hp. unfold q in *. by rewrite query_run, Hq, Hp.
Qed.

(** X7.  [nextUp] asks for the next-up items with [pass_uid] true, [remote]
    false and the user it was given, on every call; the answer goes through
    the Resolver and its outcome is returned, and a failure of the request
    is raised without a call of the Resolver. *)
Theorem nextUp_asks_and_resolves userId s h :
  let q := GetJson "/Shows/NextUp"
             [("pass_uid", PBool true); ("remote", PBool false);
              ("userId", userId)] in
  (forall e,
     respond h q = Raise e ->
     complete (nextUp respond process userId) s h = (Raise e, s, [q]))
  /\ (forall json r t,
       respond h q = Ok json ->
       process json (h ++ [q]) = (r, t) ->
       complete (nextUp respond process userId) s h = (r, s, q :: t)).
Proof.
  intros q. unfold nextUp, nextUp_body. split.
  - intros e Hq. unfold q in *. by rewrite query_run, Hq.
  - intros json r t Hq Hp. unfold q in *. by rewrite query_run, Hq, Hp.
Qed.

(** X8.  The failures of [search]: a failure of the request is raised as it
    is; an answer that is a dict without ["SearchHints"] raises the key
    error and an answer that is no dict the type error, in both cases after
    the one request and without a call of the Resolver; a failure of the
    Resolver is raised as it is. *)
Theorem search_failures query sort_map strict_sort s h :
  let q := GetJson "/Search/Hints/" (search_params query sort_map strict_sort) in
  (forall e,
     respond h q = Raise e ->
     complete (search respond process type query sort_map strict_sort) s h
     = (Raise e, s, [q]))
  /\ (forall d,
       respond h q = Ok (PDict d) -> dict_get d "SearchHints" = None ->
       complete (search respond process type query sort_map strict_sort) s h
       = (Raise (KeyError "SearchHints"), s, [q]))
  /\ (forall json,
       respond h q = Ok json -> (forall d, json <> PDict d) ->
       complete (search respond process type query sort_map strict_sort) s h
       = (Raise TypeError, s, [q]))
  /\ (forall json hints e t,
       respond h q = Ok json -> getitem json "SearchHints" = Ok hints ->
       process hints (h ++ [q]) = (Raise e, t) ->
       complete (search respond process type query sort_map strict_sort) s h
       = (Raise e, s, q :: t)).
Proof.
  intros q. repeat split.
  - intros e Hq. rewrite search_run. cbv zeta. fold q. by rewrite Hq.
  - intros d Hq Hd. rewrite search_run. cbv zeta. fold q. rewrite Hq.
    simpl. by rewrite Hd.
  - intros json Hq Hjson. rewrite search_run. cbv zeta. fold q. rewrite Hq.
    destruct json; try done. by destruct (Hjson d).
  - intros json hints e t Hq Hhints Hp. rewrite search_run. cbv zeta. fold q.
    by rewrite Hq, Hhints, Hp.
Qed.

Lemma mapM_sort_key_fails sort_map items :
  Exists (fun x => ~ is_entity x) items ->
  mapM (sort_key type sort_map (dict_len sort_map)) items = Raise AttributeError.
Proof.
  induction items as [|x items IH]; intros Hex.
  - by apply Exists_nil in Hex.
  - apply Exists_cons in Hex as [Hx|Hex].
    + by destruct x.
    + specialize (IH Hex). destruct x; try done. cbn. cbn in IH. by rewrite IH.
Qed.

(** X9.  When one of the resolved hits is not an entity, so has no [type],
    [search] raises the attribute error and returns no hit. *)
Theorem search_non_entity_hit query sort_map strict_sort s h json hints items t :
  let q := GetJson "/Search/Hints/" (search_params query sort_map strict_sort) in
  respond h q = Ok json ->
  getitem json "SearchHints" = Ok hints ->
  process hints (h ++ [q]) = (Ok (PList items), t) ->
  Exists (fun x => ~ is_entity x) items ->
  complete (search respond process type query sort_map strict_sort) s h
  = (Raise AttributeError, s, q :: t).
Proof.
  intros q Hq Hhints Hp Hex.
  rewrite search_run. cbv zeta. fold q. rewrite Hq, Hhints, Hp.
  unfold sorted. simpl iter. unfold mbind at 1, result_bind at 1.
  by rewrite mapM_sort_key_fails.
Qed.

(** X10.  When the priorities of [sort_map] are among [0 .. len(sort_map)-1],
    the result of [search] is the hits of priority 0 in the order they came,
    then those of priority 1, and so on, and last, as priority
    [len(sort_map)], the hits whose type is not mapped. *)
Theorem search_buckets query sort_map strict_sort s h json hints items t :
  let q := GetJson "/Search/Hints/" (search_params query sort_map strict_sort) in
  respond h q = Ok json ->
  getitem json "SearchHints" = Ok hints ->
  process hints (h ++ [q]) = (Ok (PList items), t) ->
  Forall is_entity items ->
  (forall k v, dict_get sort_map k = Some v -> 0 <= v < dict_len sort_map) ->
  complete (search respond process type query sort_map strict_sort) s h
  = (Ok (PList (concat
       ((fun k : nat =>
           filter (fun x => priority type sort_map x = Z.of_nat k) items)
        <$> seq 0 (S (length sort_map))))),
     s, q :: t).
Proof.
  intros q Hq Hhints Hp Hitems Hsmall.
  rewrite search_run. cbv zeta. fold q. rewrite Hq, Hhints, Hp.
  rewrite sorted_entities by done.
  rewrite (sort_on_buckets _ (S (length sort_map))); [done|].
  apply list.Forall_forall. intros x _.
  destruct (decide (mapped type sort_map x)) as [Hm|Hm].
  - destruct x; try done. simpl in *. destruct Hm as [v Hv].
    unfold dict_get_or. rewrite Hv. apply Hsmall in Hv.
    unfold dict_len in Hv. lia.
  - apply unmapped_priority in Hm. rewrite Hm. unfold dict_len. lia.
Qed.

(** X11.  On an identifier that is true as a condition, [info] returns what
    the Resolver returns and raises what it raises, the decode failure
    apart; on one that is false (None, the empty string, the empty list) it
    resolves nothing and returns the status of the server. *)
Theorem info_passes_through obj_id s h :
  (truthy obj_id = true ->
   (forall v t,
      process obj_id h = (Ok v, t) ->
      complete (info respond process obj_id) s h = (Ok v, s, t))
   /\ (forall e t,
        process obj_id h = (Raise e, t) -> e <> JSONDecodeError ->
        complete (info respond process obj_id) s h = (Raise e, s, t)))
  /\ (truthy obj_id = false ->
      complete (info respond process obj_id) s h = (respond h Info, s, [Info])).
Proof.
  split.
  - intros Htruthy. split.
    + intros v t Hp. by rewrite info_run, Htruthy, Hp.
    + intros e t Hp He. rewrite info_run, Htruthy, Hp. by destruct e.
  - intros Hfalsy. by rewrite info_run, Hfalsy.
Qed.

(** *** The cache over a run of calls *)

Lemma cache_ok_property_keys s :
  cache_ok s -> Forall (fun k => k ∈ property_names) (dict_keys (extras s)).
Proof.
  intros [_ Hkeys]. eapply Forall_impl; [|exact Hkeys].
  intros k [c ->]. apply collection_key_property.
Qed.

Lemma cache_ok_set c v s :
  cache_ok s ->
  cache_ok (set_extras (dict_set (extras s) (collection_key c) v) s).
Proof.
  intros [Hwf Hkeys]. split; simpl.
  - by apply dict_set_wf.
  - apply dict_set_keys_Forall; [done | by exists c].
Qed.

Lemma perform_keeps_cache_ok op s h r s' t :
  cache_ok s ->
  perform respond process type getattr_other op s h = (r, s', t) ->
  cache_ok s' /\ running s' = running s.
Proof.
  intros Hok Hrun.
  destruct op as [obj_id|query sort_map strict_sort|userId itemTypes groupItems
                 |userId| |c|c].
  1-4: match type of Hrun with
       | perform _ _ _ _ ?op _ _ = _ =>
           destruct (query_outcome op I) as [outcome Hout]
       end;
       rewrite Hout in Hrun; by injection Hrun as _ <- _.
  - simpl in Hrun. rewrite update_run in Hrun by by apply cache_ok_property_keys.
    injection Hrun as _ <- _. split; [|done].
    split; [apply NoDup_nil_2 | constructor].
  - simpl in Hrun. destruct (cached_state c s h) as (r0 & s0 & t0 & H0 & Hs).
    rewrite Hrun in H0. injection H0 as _ <- _.
    destruct Hs as [->|[v ->]]; [done|]. split; [by apply cache_ok_set | done].
  - simpl in Hrun. destruct (forced_state c s h) as (r0 & s0 & t0 & H0 & Hs).
    rewrite Hrun in H0. injection H0 as _ <- _.
    destruct Hs as [->|[v ->]]; [done|]. split; [by apply cache_ok_set | done].
Qed.

Lemma perform_all_keeps_cache_ok ops s h :
  cache_ok s ->
  cache_ok (perform_all respond process type getattr_other ops s h).1 /\
  running (perform_all respond process type getattr_other ops s h).1 = running s.
Proof.
  revert s h. induction ops as [|op ops IH]; intros s h Hok; [done|].
  simpl.
  destruct (perform _ _ _ _ op s h) as [[r s1] t1] eqn:Hop.
  destruct (perform_keeps_cache_ok op s h r s1 t1 Hok Hop) as [Hok1 Hrun1].
  specialize (IH s1 (h ++ t1) Hok1).
  destruct (perform_all _ _ _ _ ops s1 (h ++ t1)) as [s2 t2]. simpl in *.
  destruct IH as [Hok2 Hrun2]. split; [done | congruence].
Qed.

(** X12.  From an object whose cache is empty, after any run of calls of
    [info], [search], [latest], [nextUp], [update] and the collection
    accessors, failed calls included, the cache holds no key twice and only
    keys of collections, and the loop is as it was. *)
Theorem calls_keep_cache_ok (ops : list operation) (b : bool) h :
  cache_ok (perform_all respond process type getattr_other ops (State [] b) h).1 /\
  running (perform_all respond process type getattr_other ops (State [] b) h).1 = b.
Proof.
  apply (perform_all_keeps_cache_ok ops (State [] b) h).
  split; [apply NoDup_nil_2 | constructor].
Qed.

(** X13.  In the state any such run of calls leaves, [update] returns None,
    leaves the cache empty and makes no request, whatever the cache held. *)
Theorem update_after_any_calls (ops : list operation) (b : bool) h h' :
  complete (update respond process getattr_other)
    (perform_all respond process type getattr_other ops (State [] b) h).1 h'
  = (Ok PNone, State [] b, []).
Proof.
  destruct (perform_all_keeps_cache_ok ops (State [] b) h) as [Hok Hrun].
  { split; [apply NoDup_nil_2 | constructor]. }
  rewrite update_run by by apply cache_ok_property_keys.
  unfold set_extras. by rewrite Hrun.
Qed.

End EmbyCalls.

(** ** [class Episode] *)

(** X14.  What either setter of the episode number writes is what both
    [index_number] and [episode_number] read afterwards, and a [season_id]
    written is the [season_id] read. *)
Theorem episode_setters_round_trip (object_dict : pydict pyval) (value : pyval) :
  (exists self',
     EpisodeClass.set_index_number (PObject Episode object_dict) value = Ok self' /\
     EpisodeClass.set_episode_number (PObject Episode object_dict) value = Ok self' /\
     EpisodeClass.index_number self' = Ok value /\
     EpisodeClass.episode_number self' = Ok value)
  /\ (exists self',
       EpisodeClass.set_season_id (PObject Episode object_dict) value = Ok self' /\
       EpisodeClass.season_id self' = Ok value).
Proof.
  split; eexists; repeat split; simpl; unfold dict_get_or;
    by rewrite dict_get_set_eq.
Qed.

(** X15.  Setting the episode number leaves [season_id], [series_id],
    [series_name], [premiere_date] and [genres] as they read before, and
    setting [season_id] leaves the episode number and those others. *)
Theorem episode_setters_frame (object_dict : pydict pyval) (value : pyval) :
  (exists self',
     EpisodeClass.set_index_number (PObject Episode object_dict) value = Ok self' /\
     EpisodeClass.season_id self'
     = EpisodeClass.season_id (PObject Episode object_dict) /\
     EpisodeClass.series_id self'
     = EpisodeClass.series_id (PObject Episode object_dict) /\
     EpisodeClass.series_name self'
     = EpisodeClass.series_name (PObject Episode object_dict) /\
     EpisodeClass.premiere_date self'
     = EpisodeClass.premiere_date (PObject Episode object_dict) /\
     EpisodeClass.genres self'
     = EpisodeClass.genres (PObject Episode object_dict))
  /\ (exists self',
       EpisodeClass.set_season_id (PObject Episode object_dict) value = Ok self' /\
       EpisodeClass.index_number self'
       = EpisodeClass.index_number (PObject Episode object_dict) /\
       EpisodeClass.episode_number self'
       = EpisodeClass.episode_number (PObject Episode object_dict) /\
       EpisodeClass.series_id self'
       = EpisodeClass.series_id (PObject Episode object_dict) /\
       EpisodeClass.series_name self'
       = EpisodeClass.series_name (PObject Episode object_dict) /\
       EpisodeClass.premiere_date self'
       = EpisodeClass.premiere_date (PObject Episode object_dict) /\
       EpisodeClass.genres self'
       = EpisodeClass.genres (PObject Episode object_dict)).
Proof.
  split; eexists; repeat split; simpl; unfold dict_get_or;
    by rewrite dict_get_set_ne.
Qed.

(** ** The further statements on the sample server *)

Lemma forced_failure_keeps_cache_witness :
  complete (forced Outage.server Outage.resolver (Items Movies))
    Sample.movies_cached []
  = (Raise (RuntimeError "connection refused"), Sample.movies_cached,
     [collection_query (Items Movies)])
  /\ complete
       (forced (Sample.server Sample.hits Outage.dangling)
          (Sample.resolver Sample.hits Outage.dangling) (Items Movies))
       Sample.movies_cached []
     = (Raise JSONDecodeError, Sample.movies_cached,
        collection_query (Items Movies) :: [FetchRaw "nonexistent-id"]).
Proof.
  split.
  - apply (proj1 (forced_failure_keeps_cache Outage.server Outage.resolver
                    (Items Movies) Sample.movies_cached []
                    (RuntimeError "connection refused"))).
    reflexivity.
  - apply (proj2 (forced_failure_keeps_cache
                    (Sample.server Sample.hits Outage.dangling)
                    (Sample.resolver Sample.hits Outage.dangling)
                    (Items Movies) Sample.movies_cached [] JSONDecodeError)
             Outage.dangling [FetchRaw "nonexistent-id"]); reflexivity.
Defined.

Lemma accessor_frame_witness :
  (forall k, k <> collection_key (Items Movies) ->
     dict_get
       (extras (State [("movies", PList []); ("users", PList [Sample.entity "u1" "User" "root"])] false))
       k
     = dict_get (extras Outage.two_cached) k)
  /\ (forall c', c' <> Items Movies ->
       dict_get
         (extras (State [("movies", PList []); ("users", PList [Sample.entity "u1" "User" "root"])] false))
         (collection_key c')
       = dict_get (extras Outage.two_cached) (collection_key c'))
  /\ running (State [("movies", PList []); ("users", PList [Sample.entity "u1" "User" "root"])] false)
     = running Outage.two_cached.
Proof.
  apply (accessor_frame (Sample.server Sample.hits (PList []))
           (Sample.resolver Sample.hits (PList [])) (Items Movies)
           Outage.two_cached [] (Ok (PList [])) _ [collection_query (Items Movies)]).
  left. reflexivity.
Defined.

Lemma cached_twice_witness :
  complete
    (cached (Sample.server Sample.hits Sample.library)
       (Sample.resolver Sample.hits Sample.library) (Items Movies))
    Sample.movies_cached ([] ++ [collection_query (Items Movies)])
  = (Ok Sample.resolved_library, Sample.movies_cached, []).
Proof.
  apply (cached_twice (Sample.server Sample.hits Sample.library)
           (Sample.resolver Sample.hits Sample.library) (Items Movies)
           Sample.start []); reflexivity.
Defined.

Lemma queries_ignore_cache_witness :
  exists r t,
    perform (Sample.server Sample.hits Sample.library)
      (Sample.resolver Sample.hits Sample.library) Sample.type_tag Sample.no_attr
      (CallNextUp PNone) Sample.start []
    = (r, Sample.start, t) /\
    perform (Sample.server Sample.hits Sample.library)
      (Sample.resolver Sample.hits Sample.library) Sample.type_tag Sample.no_attr
      (CallNextUp PNone) Sample.movies_cached []
    = (r, Sample.movies_cached, t).
Proof.
  apply (queries_ignore_cache (Sample.server Sample.hits Sample.library)
           (Sample.resolver Sample.hits Sample.library) Sample.type_tag
           Sample.no_attr (CallNextUp PNone)).
  exact I.
Defined.

Lemma latest_asks_and_resolves_witness :
  complete (latest Outage.server Outage.resolver PNone EmptyString false)
    Sample.start []
  = (Raise (RuntimeError "connection refused"), Sample.start,
     [GetJson "/Users/{UserId}/Items/Latest"
        [("remote", PBool false); ("userId", PNone);
         ("IncludeItemTypes", PStr EmptyString); ("GroupItems", PBool false)]])
  /\ complete
       (latest (Sample.server Sample.hits Sample.library)
          (Sample.resolver Sample.hits Sample.library) (PStr "u1") "Movie" true)
       Sample.movies_cached []
     = (Ok Sample.resolved_library, Sample.movies_cached,
        GetJson "/Users/{UserId}/Items/Latest"
          [("remote", PBool false); ("userId", PStr "u1");
           ("IncludeItemTypes", PStr "Movie"); ("GroupItems", PBool true)]
        :: []).
Proof.
  split.
  - apply (proj1 (latest_asks_and_resolves Outage.server Outage.resolver
                    PNone EmptyString false Sample.start [])).
    reflexivity.
  - apply (proj2 (latest_asks_and_resolves
                    (Sample.server Sample.hits Sample.library)
                    (Sample.resolver Sample.hits Sample.library)
                    (PStr "u1") "Movie" true Sample.movies_cached [])
             Sample.library); reflexivity.
Defined.

Lemma nextUp_asks_and_resolves_witness :
  complete (nextUp Outage.server Outage.resolver PNone) Sample.start []
  = (Raise (RuntimeError "connection refused"), Sample.start,
     [GetJson "/Shows/NextUp"
        [("pass_uid", PBool true); ("remote", PBool false); ("userId", PNone)]])
  /\ complete
       (nextUp (Sample.server Sample.hits Sample.library)
          (Sample.resolver Sample.hits Sample.library) (PStr "u1"))
       Sample.start []
     = (Ok Sample.resolved_library, Sample.start,
        GetJson "/Shows/NextUp"
          [("pass_uid", PBool true); ("remote", PBool false);
           ("userId", PStr "u1")]
        :: []).
Proof.
  split.
  - apply (proj1 (nextUp_asks_and_resolves Outage.server Outage.resolver
                    PNone Sample.start [])).
    reflexivity.
  - apply (proj2 (nextUp_asks_and_resolves
                    (Sample.server Sample.hits Sample.library)
                    (Sample.resolver Sample.hits Sample.library)
                    (PStr "u1") Sample.start [])
             Sample.library); reflexivity.
Defined.

Lemma search_failures_witness :
  complete
    (search Outage.server Outage.resolver Sample.type_tag "x" default_sort_map true)
    Sample.start []
  = (Raise (RuntimeError "connection refused"), Sample.start,
     [GetJson "/Search/Hints/" (search_params "x" default_sort_map true)])
  /\ complete
       (search (Outage.answering (PDict [("TotalRecordCount", PInt 0)]))
          Outage.as_given Sample.type_tag "x" default_sort_map false)
       Sample.start []
     = (Raise (KeyError "SearchHints"), Sample.start,
        [GetJson "/Search/Hints/" (search_params "x" default_sort_map false)])
  /\ complete
       (search (Outage.answering (PList [])) Outage.as_given Sample.type_tag
          "x" default_sort_map false)
       Sample.start []
     = (Raise TypeError, Sample.start,
        [GetJson "/Search/Hints/" (search_params "x" default_sort_map false)])
  /\ complete
       (search (Sample.server Outage.dangling (PList []))
          (Sample.resolver Outage.dangling (PList [])) Sample.type_tag
          "x" default_sort_map false)
       Sample.start []
     = (Raise JSONDecodeError, Sample.start,
        GetJson "/Search/Hints/" (search_params "x" default_sort_map false)
        :: [FetchRaw "nonexistent-id"]).
Proof.
  split; [|split; [|split]].
  - apply (proj1 (search_failures Outage.server Outage.resolver Sample.type_tag
                    "x" default_sort_map true Sample.start [])).
    reflexivity.
  - apply (proj1 (proj2 (search_failures
                    (Outage.answering (PDict [("TotalRecordCount", PInt 0)]))
                    Outage.as_given Sample.type_tag
                    "x" default_sort_map false Sample.start []))
             [("TotalRecordCount", PInt 0)]); reflexivity.
  - apply (proj1 (proj2 (proj2 (search_failures
                    (Outage.answering (PList []))
                    Outage.as_given Sample.type_tag
                    "x" default_sort_map false Sample.start [])))
             (PList [])); [reflexivity | discriminate].
  - apply (proj2 (proj2 (proj2 (search_failures
                    (Sample.server Outage.dangling (PList []))
                    (Sample.resolver Outage.dangling (PList [])) Sample.type_tag
                    "x" default_sort_map false Sample.start [])))
             (PDict [("SearchHints", Outage.dangling)]) Outage.dangling
             JSONDecodeError [FetchRaw "nonexistent-id"]); reflexivity.
Defined.

Lemma search_non_entity_hit_witness :
  complete
    (search (Sample.server Sample.two_hits (PList [])) Outage.as_given
       Sample.type_tag "x" default_sort_map false)
    Sample.start []
  = (Raise AttributeError, Sample.start,
     GetJson "/Search/Hints/" (search_params "x" default_sort_map false) :: []).
Proof.
  apply (search_non_entity_hit
           (Sample.server Sample.two_hits (PList [])) Outage.as_given
           Sample.type_tag "x" default_sort_map false Sample.start []
           (PDict [("SearchHints", Sample.two_hits)]) Sample.two_hits
           [Sample.record "b" "Movie" "B"; Sample.record "d" "Person" "D"] []);
    try reflexivity.
  apply Exists_cons_hd. intros [].
Defined.

Lemma search_buckets_witness :
  complete
    (search (Sample.server Sample.hits (PList []))
       (Sample.resolver Sample.hits (PList [])) Sample.type_tag
       "x" default_sort_map false)
    Sample.start []
  = (Ok (PList (concat
       ((fun k : nat =>
           filter (fun x => priority Sample.type_tag default_sort_map x = Z.of_nat k)
             [Sample.entity "a" "Series" "A"; Sample.entity "b" "Movie" "B";
              Sample.entity "c" "Movie" "C"; Sample.entity "d" "Person" "D"])
        <$> seq 0 (S (length default_sort_map))))),
     Sample.start,
     GetJson "/Search/Hints/" (search_params "x" default_sort_map false) :: []).
Proof.
  apply (search_buckets
           (Sample.server Sample.hits (PList []))
           (Sample.resolver Sample.hits (PList [])) Sample.type_tag
           "x" default_sort_map false Sample.start []
           (PDict [("SearchHints", Sample.hits)]) Sample.hits
           [Sample.entity "a" "Series" "A"; Sample.entity "b" "Movie" "B";
            Sample.entity "c" "Movie" "C"; Sample.entity "d" "Person" "D"] []);
    try reflexivity.
  - repeat constructor.
  - intros k v. unfold default_sort_map. simpl.
    repeat (destruct (String.eqb k _); [intros [= <-]; split; reflexivity || discriminate|]).
    intros [=].
Defined.

(** With the default map the hits Series A, Movie B, Movie C, Person D come
    out in the same order: the series, the two movies, the person. *)
Example search_default_map_example :
  complete
    (search (Sample.server Sample.hits (PList []))
       (Sample.resolver Sample.hits (PList [])) Sample.type_tag
       "x" default_sort_map false)
    Sample.start []
  = (Ok (PList [Sample.entity "a" "Series" "A"; Sample.entity "b" "Movie" "B";
                Sample.entity "c" "Movie" "C"; Sample.entity "d" "Person" "D"]),
     Sample.start,
     [GetJson "/Search/Hints/" [("remote", PBool false); ("searchTerm", PStr "x")]]).
Proof. vm_compute. reflexivity. Qed.

Lemma info_passes_through_witness :
  complete
    (info (Sample.server Sample.hits Sample.library)
       (Sample.resolver Sample.hits Sample.library) (PStr "m7"))
    Sample.start []
  = (Ok (Sample.entity "m7" "Movie" "A movie"), Sample.start, [FetchRaw "m7"])
  /\ complete (info Outage.server Outage.resolver (PStr "m7")) Sample.start []
     = (Raise (RuntimeError "connection refused"), Sample.start, [FetchRaw "m7"])
  /\ complete
       (info (Sample.server Sample.hits Sample.library)
          (Sample.resolver Sample.hits Sample.library) (PStr EmptyString))
       Sample.start []
     = (Ok (PDict [("ServerName", PStr "sample")]), Sample.start, [Info]).
Proof.
  split; [|split].
  - apply (proj1 (proj1 (info_passes_through
                    (Sample.server Sample.hits Sample.library)
                    (Sample.resolver Sample.hits Sample.library)
                    (PStr "m7") Sample.start []) eq_refl)); reflexivity.
  - apply (proj2 (proj1 (info_passes_through Outage.server Outage.resolver
                    (PStr "m7") Sample.start []) eq_refl));
      [reflexivity | discriminate].
  - apply (proj2 (info_passes_through
                    (Sample.server Sample.hits Sample.library)
                    (Sample.resolver Sample.hits Sample.library)
                    (PStr EmptyString) Sample.start [])); reflexivity.
Defined.

(** A run of calls on the sample server: a search, the movies read twice
    (one query), a failed lookup, and the users forced. *)
Example calls_example :
  perform_all (Sample.server Sample.hits Sample.library)
    (Sample.resolver Sample.hits Sample.library) Sample.type_tag Sample.no_attr
    [CallSearch "x" default_sort_map false; ReadCached (Items Movies);
     ReadCached (Items Movies); CallInfo (PStr "nonexistent-id");
     ReadForced Users] Sample.start []
  = (State [("movies", Sample.resolved_library); ("users", Sample.resolved_library)]
       false,
     [GetJson "/Search/Hints/" [("remote", PBool false); ("searchTerm", PStr "x")];
      collection_query (Items Movies); FetchRaw "nonexistent-id";
      collection_query Users]).
Proof. vm_compute. reflexivity. Qed.

(** ** [search] on hits of unmapped types *)

Lemma filter_all {A} (P : A -> Prop) `{!forall x, Decision (P x)} (l : list A) :
  Forall P l -> filter P l = l.
Proof.
  induction 1 as [|x l Hx Hl IH]; [done|].
  by rewrite filter_cons_True, IH.
Qed.

Lemma sort_on_constant {A} (f : A -> Z) (m : Z) (l : list A) :
  Forall (fun y => f y = m) l -> sort_on f l = l.
Proof.
  intros Hl.
  rewrite <- (filter_all (fun y => f y = m) (sort_on f l)).
  - by rewrite sort_on_stable, filter_all.
  - by rewrite sort_on_perm.
Qed.

Section SearchUnmapped.

Context (respond : list request -> request -> result pyval).
Context (process : pyval -> tr pyval).
Context (type : eclass -> pydict pyval -> string).

(** X16.  When the type of no hit is a key of [sort_map], as with an empty
    [sort_map], [search] returns the hits in the order the Resolver gave
    them. *)
Theorem search_keeps_order_of_unmapped
    query sort_map strict_sort s h json hints items t :
  let q := GetJson "/Search/Hints/" (search_params query sort_map strict_sort) in
  respond h q = Ok json ->
  getitem json "SearchHints" = Ok hints ->
  process hints (h ++ [q]) = (Ok (PList items), t) ->
  Forall is_entity items ->
  Forall (fun x => ~ mapped type sort_map x) items ->
  complete (search respond process type query sort_map strict_sort) s h
  = (Ok (PList items), s, q :: t).
Proof.
  intros q Hq Hhints Hp Hitems Hunmapped.
  rewrite search_run. cbv zeta. fold q. rewrite Hq, Hhints, Hp.
  rewrite sorted_entities by done.
  rewrite (sort_on_constant _ (dict_len sort_map)); [done|].
  eapply Forall_impl; [|exact Hunmapped].
  intros x Hx. by apply unmapped_priority.
Qed.

End SearchUnmapped.

Lemma search_keeps_order_of_unmapped_witness :
  complete
    (search (Sample.server Sample.hits (PList []))
       (Sample.resolver Sample.hits (PList [])) Sample.type_tag
       "x" [] true)
    Sample.start []
  = (Ok (PList [Sample.entity "a" "Series" "A"; Sample.entity "b" "Movie" "B";
                Sample.entity "c" "Movie" "C"; Sample.entity "d" "Person" "D"]),
     Sample.start,
     GetJson "/Search/Hints/" (search_params "x" [] true) :: []).
Proof.
  apply (search_keeps_order_of_unmapped
           (Sample.server Sample.hits (PList []))
           (Sample.resolver Sample.hits (PList [])) Sample.type_tag
           "x" [] true Sample.start []
           (PDict [("SearchHints", Sample.hits)]) Sample.hits
           [Sample.entity "a" "Series" "A"; Sample.entity "b" "Movie" "B";
            Sample.entity "c" "Movie" "C"; Sample.entity "d" "Person" "D"] []);
    try reflexivity.
  - repeat constructor.
  - repeat constructor; intros [v Hv]; discriminate Hv.
Defined.

(** ** [update], key by key *)

Section UpdateLoop.

Context (respond : list request -> request -> result pyval).
Context (process : pyval -> tr pyval).
Context (getattr_other : string -> io attr).

Lemma try_pass_run (c : io unit) s h :
  try_except c (fun _ => mret tt) s h
  = let '(_, s1, t1) := c s h in (Ok tt, s1, t1).
Proof.
  unfold try_except. destruct (c s h) as [[[[]|e] s1] t1]; [done|].
  simpl. by rewrite app_nil_r.
Qed.

Lemma update_loop_run keys s h :
  for_each keys (fun key =>
    try_except (refresh_key respond process getattr_other key)
      (fun _ => mret tt)) s h
  = let '(s', t) := refresh_all respond process getattr_other keys s h in
    (Ok tt, s', t).
Proof.
  revert s h. induction keys as [|key keys IH]; intros s h; [done|].
  rewrite for_each_cons, try_pass_run. simpl refresh_all.
  destruct (refresh_key _ _ _ key s h) as [[r s1] t1].
  rewrite IH.
  by destruct (refresh_all _ _ _ keys s1 (h ++ t1)) as [s2 t2].
Qed.

(** X1.  [update] empties the cache and then tries every key that was
    cached, in the order of the cache: the attribute of that name is read,
    and called when it is callable, from the state and the requests the keys
    before it left.  An exception at a key is dropped there, what the key
    had done up to it is kept, and the loop goes on to the remaining keys.
    [update] then returns None. *)
Theorem update_tries_every_key s h :
  complete (update respond process getattr_other) s h
  = let '(s', t) :=
      refresh_all respond process getattr_other (dict_keys (extras s))
        (set_running true (set_extras [] s)) h in
    (Ok PNone, if running s then s' else set_running false s', t).
Proof.
  unfold update. rewrite complete_async_func.
  assert (Hbody : forall s0,
            update_body respond process getattr_other s0 h
            = let '(s', t) :=
                refresh_all respond process getattr_other
                  (dict_keys (extras s0)) (set_extras [] s0) h in
              (Ok PNone, s', t)).
  { intros s0.
    pose proof (update_loop_run (dict_keys (extras s0)) (set_extras [] s0) h)
      as Hloop.
    unfold refresh_key in Hloop.
    unfold update_body, get_state, put_state.
    unfold mbind at 1 2 3, io_bind at 1 2 3.
    rewrite !app_nil_r, Hloop.
    destruct (refresh_all _ _ _ _ _ _) as [s' t]. simpl.
    by rewrite app_nil_r. }
  rewrite !Hbody.
  destruct s as [ex [|]]; simpl.
  - by destruct (refresh_all _ _ _ _ _ _) as [s' t].
  - by destruct (refresh_all _ _ _ _ _ _) as [s' t].
Qed.

End UpdateLoop.

(** A cache with the keys [a] and [b] on an object where reading [a] raises
    and [b] is a method that asks for the status: the failure at [a] is
    dropped and [b] is still called. *)
Example update_goes_on_after_failure :
  complete
    (update (Sample.server Sample.hits Sample.library)
       (Sample.resolver Sample.hits Sample.library) Outage.two_attrs)
    (State [("a", PNone); ("b", PNone)] false) []
  = (Ok PNone, Sample.start, [Info]).
Proof. vm_compute. reflexivity. Qed.

(** ** [info] and the decode failure of the transport *)

Section InfoLookup.

Context (respond : list request -> request -> result pyval).
Context (classify : string -> eclass).
Context (unwrap : pyval -> result (pydict pyval)).
Context (schedule : nat -> list nat).

(** The fetch of every identifier of the sequence is answered by a record or
    reported as a decode failure. *)
Definition fetches_decided (l : list pyval) : Prop :=
  forall h id, PStr id ∈ l ->
    (exists raw record,
       respond h (FetchRaw id) = Ok raw /\ unwrap raw = Ok record) \/
    respond h (FetchRaw id) = Raise JSONDecodeError.

(** The fetch of the identifier is always reported as a decode failure. *)
Definition never_decodes (id : string) : Prop :=
  forall h, respond h (FetchRaw id) = Raise JSONDecodeError.

Lemma resolve_decode_failure id h :
  respond h (FetchRaw id) = Raise JSONDecodeError ->
  resolve respond classify unwrap (PStr id) h
  = (Raise JSONDecodeError, [FetchRaw id]).
Proof.
  intros Hfail. unfold resolve, fetchRaw, mbind, tr_bind. by rewrite Hfail.
Qed.

Lemma resolve_into_decided l slots i h :
  Forall is_element l -> fetches_decided l ->
  (exists slots' t,
     resolve_into respond classify unwrap l slots i h = (Ok slots', t)) \/
  (exists t,
     resolve_into respond classify unwrap l slots i h
     = (Raise JSONDecodeError, t)).
Proof.
  intros Hl Hdec. unfold resolve_into.
  destruct (l !! i) as [x|] eqn:Hi; [|left; by eexists _, _].
  assert (Hin : x ∈ l) by (by eapply list_elem_of_lookup_2).
  assert (Hx : is_element x) by (by eapply (proj1 (list.Forall_forall _ _) Hl)).
  destruct x; try done.
  - destruct (Hdec h s Hin) as [(raw & record & Hraw & Hrec)|Hfail].
    + left. eexists _, _. unfold mbind, tr_bind, resolve, fetchRaw, tr_result.
      unfold mbind, tr_bind. rewrite Hraw. simpl. by rewrite Hrec.
    + right. eexists. unfold mbind, tr_bind.
      by rewrite (resolve_decode_failure s h Hfail).
  - left. by eexists _, _.
  - left. by eexists _, _.
Qed.

Lemma resolve_in_order_decode_failure l i id order slots h :
  Forall is_element l -> fetches_decided l ->
  l !! i = Some (PStr id) -> never_decodes id -> i ∈ order ->
  exists t,
    resolve_in_order respond classify unwrap l order slots h
    = (Raise JSONDecodeError, t).
Proof.
  intros Hl Hdec Hi Hnever. revert slots h.
  induction order as [|j order IH]; intros slots h Hin.
  - by apply elem_of_nil in Hin.
  - rewrite resolve_in_order_cons.
    destruct (decide (j = i)) as [->|Hne].
    + unfold resolve_into. rewrite Hi. unfold mbind, tr_bind.
      rewrite (resolve_decode_failure id h (Hnever h)). by eexists.
    + apply elem_of_cons in Hin as [->|Hin]; [done|].
      destruct (resolve_into_decided l slots j h Hl Hdec)
        as [(slots' & t1 & ->)|(t1 & ->)]; [|by eexists].
      destruct (IH slots' (h ++ t1) Hin) as [t2 ->]. by eexists.
Qed.

(** C5, amended.  When the decode failure comes out of the Resolver, [info]
    fails with the lookup error that carries its argument as it was passed.
    So, on the Resolver of the specification: for a single identifier whose
    fetch the transport reports as a decode failure, the error carries that
    identifier; for a sequence in which the fetch of some identifier is
    reported as a decode failure (the others being answered or reported
    likewise), the error carries the whole sequence.  With no identifier,
    [info] returns what the status request of the connector returns. *)
Theorem info_lookup_error (resolver : pyval -> tr pyval) s h :
  (forall obj_id t,
     truthy obj_id = true ->
     resolver obj_id h = (Raise JSONDecodeError, t) ->
     complete (info respond resolver obj_id) s h
     = (Raise (LookupError "Error object with that id does not exist" obj_id),
        s, t))
  /\ (forall id,
       id <> EmptyString ->
       respond h (FetchRaw id) = Raise JSONDecodeError ->
       complete
         (info respond (process respond classify unwrap schedule) (PStr id)) s h
       = (Raise (LookupError "Error object with that id does not exist" (PStr id)),
          s, [FetchRaw id]))
  /\ (forall l i id,
       schedule (length l) ≡ₚ seq 0 (length l) ->
       Forall is_element l -> fetches_decided l ->
       l !! i = Some (PStr id) -> never_decodes id ->
       exists t,
         complete
           (info respond (process respond classify unwrap schedule) (PList l)) s h
         = (Raise (LookupError "Error object with that id does not exist" (PList l)),
            s, t))
  /\ complete (info respond resolver PNone) s h = (respond h Info, s, [Info]).
Proof.
  split; [|split; [|split]].
  - intros obj_id t Htruthy Hp. by rewrite info_run, Htruthy, Hp.
  - intros id Hid Hfail. rewrite info_run.
    assert (Htruthy : truthy (PStr id) = true).
    { simpl. by apply negb_true_iff, String.eqb_neq. }
    rewrite Htruthy.
    change (process respond classify unwrap schedule (PStr id) h)
      with (resolve respond classify unwrap (PStr id) h).
    by rewrite (resolve_decode_failure id h Hfail).
  - intros l i id Hperm Hl Hdec Hi Hnever.
    destruct (resolve_in_order_decode_failure l i id (schedule (length l))
                (replicate (length l) None) h Hl Hdec Hi Hnever) as [t Ht].
    { rewrite Hperm. apply elem_of_seq. apply lookup_lt_Some in Hi. lia. }
    exists t. rewrite info_run.
    assert (Htruthy : truthy (PList l) = true).
    { destruct l; [done | done]. }
    rewrite Htruthy. unfold process, mbind, tr_bind. by rewrite Ht.
  - by rewrite info_run.
Qed.

End InfoLookup.

(** The example of the specification, [info] on an identifier the server
    does not know, and [info] on a sequence that holds it. *)
Lemma info_lookup_error_witness :
  complete
    (info (Sample.server Sample.hits Sample.library)
       (Sample.resolver Sample.hits Sample.library) (PStr "nonexistent-id"))
    Sample.start []
  = (Raise (LookupError "Error object with that id does not exist"
              (PStr "nonexistent-id")),
     Sample.start, [FetchRaw "nonexistent-id"])
  /\ exists t,
       complete
         (info (Sample.server Sample.hits Sample.library)
            (Sample.resolver Sample.hits Sample.library)
            (PList [PStr "m7"; PStr "nonexistent-id"; PStr "m9"]))
         Sample.start []
       = (Raise (LookupError "Error object with that id does not exist"
                   (PList [PStr "m7"; PStr "nonexistent-id"; PStr "m9"])),
          Sample.start, t).
Proof.
  split.
  - apply (proj1 (proj2 (info_lookup_error
                    (Sample.server Sample.hits Sample.library)
                    Sample.classify Sample.unwrap Sample.in_turn
                    (Sample.resolver Sample.hits Sample.library)
                    Sample.start []))); [discriminate | reflexivity].
  - apply (proj1 (proj2 (proj2 (info_lookup_error
                    (Sample.server Sample.hits Sample.library)
                    Sample.classify Sample.unwrap Sample.in_turn
                    (Sample.resolver Sample.hits Sample.library)
                    Sample.start [])))
             [PStr "m7"; PStr "nonexistent-id"; PStr "m9"] 1%nat
             "nonexistent-id").
    + reflexivity.
    + repeat constructor.
    + intros h id _. simpl.
      destruct (String.eqb id "nonexistent-id"); [by right|].
      left. by eexists _, _.
    + reflexivity.
    + intros h. reflexivity.
Defined.

(** C5, as stated, fails for a sequence: the lookup error carries the whole
    sequence that was passed, not the identifier whose fetch failed. *)
Lemma info_sequence_error_carries_sequence :
  exists carried,
    complete
      (info (Sample.server Sample.hits Sample.library)
         (Sample.resolver Sample.hits Sample.library)
         (PList [PStr "m7"; PStr "nonexistent-id"; PStr "m9"]))
      Sample.start []
    = (Raise (LookupError "Error object with that id does not exist" carried),
       Sample.start, [FetchRaw "m7"; FetchRaw "nonexistent-id"]) /\
    carried = PList [PStr "m7"; PStr "nonexistent-id"; PStr "m9"] /\
    carried <> PStr "nonexistent-id".
Proof.
  eexists. split; [vm_compute; reflexivity|]. split; [reflexivity | discriminate].
Qed.
